(** * The durable orchestrator: replay driver of a workflow generator

    Shallow embedding of [azure/durable_functions/orchestrator.py].

    The class [Orchestrator] drives a user generator against a history of
    events.  Its collaborators ([DurableOrchestrationContext], [Task],
    [TaskSet], [OrchestratorState], [should_suspend], [dt_parse]) live in
    other modules of the package; they appear here either as parameters of
    the development or as small models written from the specification, each
    one marked as such. *)

From Stdlib Require Import ZArith List String Bool Lia Ascii Sorted DecimalString.
Import ListNotations.
Local Open Scope Z_scope.

(** ** Python values and exceptions *)

(** The payloads that travel through the driver: results of operations,
    values sent into the generator, the final value of the workflow.  The
    last kind is an object of any other class (a [datetime], a [set]),
    known by the name of its class; it has no JSON form. *)
Inductive Value : Type :=
| VNone
| VBool (b : bool)
| VInt (n : Z)
| VStr (s : string)
| VObject (class_name : string).

(** [type(v).__name__], as it shows in the message of an exception. *)
Definition type_name (v : Value) : string :=
  match v with
  | VNone => "NoneType"
  | VBool _ => "bool"
  | VInt _ => "int"
  | VStr _ => "str"
  | VObject class_name => class_name
  end.

(** An exception object, as far as the driver looks at it: whether it is an
    instance of [Exception] (what [except Exception] tests; [KeyboardInterrupt],
    [SystemExit] and [GeneratorExit] are not), and [str(e)]. *)
Record Exn : Type := mkExn
  { is_Exception : bool;
    str : string }.

Definition Exception (msg : string) : Exn :=
  {| is_Exception := true; str := msg |}.

(** [AttributeError] raised by [partial_result.result] on an object of the
    class [class_name] that has no such attribute. *)
Definition AttributeError (class_name attr : string) : Exn :=
  Exception ("'" ++ class_name ++ "' object has no attribute '" ++ attr ++ "'")%string.

(** [TypeError] raised by the JSON encoder on an object it has no form
    for. *)
Definition TypeError_not_serializable (v : Value) : Exn :=
  Exception ("Object of type " ++ type_name v ++ " is not JSON serializable")%string.

(** What is in flight when a Python call does not return normally:
    [StopIteration] carrying the generator's final value, or another
    exception. *)
Inductive PyRaise : Type :=
| StopIteration (value : Value)
| Raise (e : Exn).

(** ** A small error monad *)

Definition bind {E A B : Type} (m : E + A) (k : A -> E + B) : E + B :=
  match m with
  | inl e => inl e
  | inr a => k a
  end.

Notation "x <- m ;; k" := (bind m (fun x => k))
  (at level 61, m at next level, right associativity).

(** ** History *)

Inductive HistoryEventType : Type :=
| OrchestratorStarted
| TaskScheduled
| TaskCompleted
| TaskFailed
| TimerFired
| EventRaised.

Definition HistoryEventType_eqb (a b : HistoryEventType) : bool :=
  match a, b with
  | OrchestratorStarted, OrchestratorStarted
  | TaskScheduled, TaskScheduled
  | TaskCompleted, TaskCompleted
  | TaskFailed, TaskFailed
  | TimerFired, TimerFired
  | EventRaised, EventRaised => true
  | _, _ => false
  end.

(** One record of the log.  The driver reads ["EventType"] and
    ["Timestamp"]; the other fields are the payload that the operation
    factories match on. *)
Record HistoryEvent : Type := mkEvent
  { EventType : HistoryEventType;
    Timestamp : string;
    IsProcessed : bool;
    EventId : Z;
    Name : string;
    TaskScheduledId : Z;
    Result : Value;
    Reason : string }.

(** ** Operation handles *)

Inductive Action : Type :=
| CallActivityAction (functionName : string) (input : Value)
| CreateTimerAction (fireAt : string)
| WaitForExternalEventAction (externalEventName : string).

(** Modelled from the spec: the [Task] class (models/Task.py is not under
    src/).  A handle is PENDING, COMPLETED(result) or FAULTED(error) and
    carries the action descriptor it was built with, so the attribute test
    [hasattr(task, "action")] of [_add_to_actions] holds for every handle. *)
Inductive Outcome : Type :=
| PENDING
| COMPLETED (result : Value)
| FAULTED (error : Exn).

Record Task : Type := mkTask
  { task_outcome : Outcome;
    _action : Action }.

(** Modelled from the spec: the [TaskSet] class (models/TaskSet.py is not
    under src/): the batch form, with the aggregate outcome and the member
    actions. *)
Record TaskSet : Type := mkTaskSet
  { taskset_outcome : Outcome;
    taskset_actions : list Action }.

(** What a generator may yield: [None], a [Task], a [TaskSet], or an object
    of any other class, of which the driver reads one attribute, [result]:
    the object has it, with a value, or has it not. *)
Inductive PyObj : Type :=
| PyNone
| PyTask (t : Task)
| PyTaskSet (ts : TaskSet)
| PyOther (class_name : string) (result : option Value).

Definition outcome_isFaulted (o : Outcome) : bool :=
  match o with
  | FAULTED _ => true
  | _ => false
  end.

Definition outcome_is_pending (o : Outcome) : bool :=
  match o with
  | PENDING => true
  | _ => false
  end.

(** [.result]; [None] until the operation has completed. *)
Definition outcome_result (o : Outcome) : Value :=
  match o with
  | COMPLETED r => r
  | _ => VNone
  end.

(** ** The per-invocation context *)

Record DurableOrchestrationContext : Type := mkContext
  { histories : list HistoryEvent;
    decision_started_event : HistoryEvent;
    current_utc_datetime : option Z;
    actions : list (list Action) }.

Definition set_actions (acts : list (list Action))
    (c : DurableOrchestrationContext) : DurableOrchestrationContext :=
  {| histories := histories c;
     decision_started_event := decision_started_event c;
     current_utc_datetime := current_utc_datetime c;
     actions := acts |}.

Definition set_time (ev : HistoryEvent) (now : option Z)
    (c : DurableOrchestrationContext) : DurableOrchestrationContext :=
  {| histories := histories c;
     decision_started_event := ev;
     current_utc_datetime := now;
     actions := actions c |}.

(** ** The decision *)

(** [OrchestratorState(is_done, actions, output, error=None,
    custom_status=None)]; a field that holds [None] is absent. *)
Record OrchestratorState : Type := mkState
  { is_done : bool;
    output : Value;
    state_actions : list (list Action);
    custom_status : Value;
    error : option string }.

(** ** The workflow generator *)

(** A generator function, as a resumable machine.  [gen_start] is the
    generator object that calling the function returns (no code of the body
    has run yet); [gen_send] and [gen_throw] resume it and run it up to its
    next [yield] (the yielded object), to its [return] ([StopIteration]) or
    to an uncaught exception, and give the generator object as it is
    afterwards.  The body reads the context it was given, as it is at the
    time of the resumption; in this module the fields of the context are
    written by the driver only. *)
Record Workflow : Type := mkWorkflow
  { G : Type;
    gen_start : G;
    gen_send : G -> DurableOrchestrationContext -> Value -> G * (PyRaise + PyObj);
    gen_throw : G -> DurableOrchestrationContext -> Exn -> G * (PyRaise + PyObj) }.

Record Orchestrator : Type := mkOrchestrator
  { fn : Workflow;
    customStatus : Value;
    durable_context : option DurableOrchestrationContext;
    generator : option (G fn) }.

(** [Orchestrator.__init__]. *)
Definition Orchestrator_init (activity_func : Workflow) : Orchestrator :=
  {| fn := activity_func;
     customStatus := VNone;
     durable_context := None;
     generator := None |}.

(** The instance after [handle] has assigned [self.durable_context] and
    [self.generator]. *)
Definition assigned (self : Orchestrator) (c : DurableOrchestrationContext)
    (g : G (fn self)) : Orchestrator :=
  {| fn := fn self;
     customStatus := customStatus self;
     durable_context := Some c;
     generator := Some g |}.

Section Driver.

(** [dateutil.parser.parse], to an instant on the time line (all
    timestamps taken in one time zone, so that any two compare); it raises
    on a string that is no date.  The date fields that a string lacks are
    filled from the day of the run: [dt_parse] is the reading of that day,
    one function for the length of an invocation, and another one on
    another day. *)
Variable dt_parse : string -> Exn + Z.

(** The constructor [DurableOrchestrationContext(context_string)]
    (models/DurableOrchestrationContext.py is not under src/): it decodes
    the context string or raises. *)
Variable new_context : string -> Exn + DurableOrchestrationContext.

(** Which yielded objects other than handles are the sentinel "no further
    history, nothing to resolve yet" of the suspension predicate. *)
Variable is_sentinel : PyObj -> bool.

(** [OrchestratorState.to_json_string]; it raises on a decision that has no
    JSON form. *)
Variable to_json_string : OrchestratorState -> Exn + string.

(** Modelled from the spec: [should_suspend] (tasks/ is not under src/).
    True for a PENDING handle or batch and for the sentinel; false for
    every value that is already resolved, COMPLETED or FAULTED. *)
Definition should_suspend (partial_result : PyObj) : bool :=
  match partial_result with
  | PyTask t => outcome_is_pending (task_outcome t)
  | PyTaskSet ts => outcome_is_pending (taskset_outcome ts)
  | other => is_sentinel other
  end.

(** [(isinstance(x, Task) or isinstance(x, TaskSet)) and x.isFaulted];
    when it holds, [x.exception]. *)
Definition faulted_exception (generation_state : PyObj) : option Exn :=
  match generation_state with
  | PyTask {| task_outcome := FAULTED e |} => Some e
  | PyTaskSet {| taskset_outcome := FAULTED e |} => Some e
  | _ => None
  end.

(** [Orchestrator._generate_next]; reading [partial_result.result] of an
    object without that attribute fails before the generator is touched. *)
Definition _generate_next (W : Workflow) (g : G W)
    (c : DurableOrchestrationContext) (partial_result : PyObj)
  : G W * (PyRaise + PyObj) :=
  match partial_result with
  | PyNone => gen_send W g c VNone
  | PyTask t => gen_send W g c (outcome_result (task_outcome t))
  | PyTaskSet ts => gen_send W g c (outcome_result (taskset_outcome ts))
  | PyOther _ (Some result) => gen_send W g c result
  | PyOther class_name None =>
      (g, inl (Raise (AttributeError class_name "result")))
  end.

(** [Orchestrator._add_to_actions]. *)
Definition _add_to_actions (generation_state : PyObj)
    (c : DurableOrchestrationContext) : DurableOrchestrationContext :=
  match generation_state with
  | PyTask t => set_actions (actions c ++ [[_action t]]) c
  | PyTaskSet ts => set_actions (actions c ++ [taskset_actions ts]) c
  | _ => c
  end.

(** The predicate of the [filter] in [_reset_timestamp]; [and] evaluates
    [dt_parse] for the OrchestratorStarted events only. *)
Definition is_newer_decision_start (last_timestamp : Z) (e_ : HistoryEvent)
  : Exn + bool :=
  if HistoryEventType_eqb (EventType e_) OrchestratorStarted
  then t <- dt_parse (Timestamp e_) ;; inr (last_timestamp <? t)
  else inr false.

(** [list(filter(p, l))] for a predicate that may raise. *)
Fixpoint filter_raising {A : Type} (p : A -> Exn + bool) (l : list A)
  : Exn + list A :=
  match l with
  | [] => inr []
  | x :: l' =>
      b <- p x ;;
      rest <- filter_raising p l' ;;
      inr (if b then x :: rest else rest)
  end.

(** [Orchestrator._reset_timestamp]. *)
Definition _reset_timestamp (c : DurableOrchestrationContext)
  : Exn + DurableOrchestrationContext :=
  last_timestamp <- dt_parse (Timestamp (decision_started_event c)) ;;
  decision_started_events <-
    filter_raising (is_newer_decision_start last_timestamp) (histories c) ;;
  match decision_started_events with
  | [] => inr (set_time (decision_started_event c) None c)
  | first :: _ =>
      now <- dt_parse (Timestamp first) ;;
      inr (set_time first (Some now) c)
  end.

(** The state of the [while] loop of [handle]: the generator, the object it
    yielded last ([generation_state]) and the context. *)
Record LoopState (W : Workflow) : Type := mkLoop
  { loop_generator : G W;
    generation_state : PyObj;
    loop_context : DurableOrchestrationContext }.

Arguments mkLoop {W} _ _ _.
Arguments loop_generator {W} _.
Arguments generation_state {W} _.
Arguments loop_context {W} _.

(** How the [try] block is left: [suspended = True] with the decision
    built, or an exception in flight. *)
Definition Leave : Type := (PyRaise + OrchestratorState)%type.

(** How one pass through the loop body ends: with the next loop state, or
    out of the loop, with the generator and the context as they are
    then. *)
Inductive Pass (W : Workflow) : Type :=
| Continue (s : LoopState W)
| Break (g : G W) (c : DurableOrchestrationContext) (l : Leave).

Arguments Continue {W} _.
Arguments Break {W} _ _ _.

(** After the generator has been resumed inside the [try] block. *)
Definition resumed {W : Workflow} (c : DurableOrchestrationContext)
    (r : G W * (PyRaise + PyObj)) : Pass W :=
  match r with
  | (g', inl raised) => Break g' c (inl raised)
  | (g', inr y) => Continue (mkLoop g' y c)
  end.

(** The body of [while not suspended] in [handle]. *)
Definition loop_body (self : Orchestrator) (s : LoopState (fn self))
  : Pass (fn self) :=
  let c := _add_to_actions (generation_state s) (loop_context s) in
  if should_suspend (generation_state s) then
    Break (loop_generator s) c
      (inr {| is_done := false;
              output := VNone;
              state_actions := actions c;
              custom_status := customStatus self;
              error := None |})
  else
    match faulted_exception (generation_state s) with
    | Some exc => resumed c (gen_throw (fn self) (loop_generator s) c exc)
    | None =>
        match _reset_timestamp c with
        | inl e => Break (loop_generator s) c (inl (Raise e))
        | inr c' =>
            resumed c' (_generate_next (fn self) (loop_generator s) c'
                          (generation_state s))
        end
    end.

(** The loop; [None] when it has not ended within [fuel] passes. *)
Fixpoint while_not_suspended (fuel : nat) (self : Orchestrator)
    (s : LoopState (fn self))
  : option (G (fn self) * DurableOrchestrationContext * Leave) :=
  match fuel with
  | O => None
  | S fuel' =>
      match loop_body self s with
      | Continue s' => while_not_suspended fuel' self s'
      | Break g c l => Some (g, c, l)
      end
  end.

(** The [try] block of [handle], from [self._generate_next(None)] on. *)
Definition try_block (fuel : nat) (self : Orchestrator)
    (c : DurableOrchestrationContext)
  : option (G (fn self) * DurableOrchestrationContext * Leave) :=
  match resumed c (_generate_next (fn self) (gen_start (fn self)) c PyNone) with
  | Continue s => while_not_suspended fuel self s
  | Break g c' l => Some (g, c', l)
  end.

(** The two [except] clauses of [handle]; an exception that is no
    [Exception] passes through both.  The warning that the second clause
    logs is left out. *)
Definition except_clauses (self : Orchestrator)
    (c : DurableOrchestrationContext) (l : Leave)
  : Exn + OrchestratorState :=
  match l with
  | inr orchestration_state => inr orchestration_state
  | inl (StopIteration value) =>
      inr {| is_done := true;
             output := value;
             state_actions := actions c;
             custom_status := customStatus self;
             error := None |}
  | inl (Raise e) =>
      if is_Exception e then
        inr {| is_done := false;
               output := VNone;
               state_actions := actions c;
               custom_status := customStatus self;
               error := Some (str e) |}
      else inl e
  end.

(** [handle] up to the decision it is about to serialise, with the
    instance as the call leaves it: [None] when the loop has not ended
    within [fuel] passes, [inl e] when [e] leaves [handle], [inr d] when
    [handle] reaches its [return] with the decision [d]. *)
Definition orchestration_state (fuel : nat) (self : Orchestrator)
    (context_string : string)
  : option (Orchestrator * (Exn + OrchestratorState)) :=
  match new_context context_string with
  | inl e => Some (self, inl e)
  | inr c =>
      match try_block fuel self c with
      | None => None
      | Some (g, c', l) => Some (assigned self c' g, except_clauses self c' l)
      end
  end.

(** [return orchestration_state.to_json_string()], after the [try]
    statement: an exception of the serialiser leaves [handle]. *)
Definition returned (r : Exn + OrchestratorState) : Exn + string :=
  match r with
  | inl e => inl e
  | inr d => to_json_string d
  end.

(** [Orchestrator.handle]. *)
Definition handle (fuel : nat) (self : Orchestrator) (context_string : string)
  : option (Orchestrator * (Exn + string)) :=
  match orchestration_state fuel self context_string with
  | None => None
  | Some (self', r) => Some (self', returned r)
  end.

(** [Orchestrator.create]: the closure builds a new instance at each call
    and drops it. *)
Definition create (fuel : nat) (fn_ : Workflow) (context : string)
  : option (Exn + string) :=
  option_map snd (handle fuel (Orchestrator_init fn_) context).

End Driver.

Arguments mkLoop {W} _ _ _.
Arguments loop_generator {W} _.
Arguments generation_state {W} _.
Arguments loop_context {W} _.
Arguments Continue {W} _.
Arguments Break {W} _ _ _.

(** ** Ghost observations of a run *)

(** The batch that [_add_to_actions] appends for a yielded object: none,
    or one. *)
Definition batch_of (y : PyObj) : list (list Action) :=
  match y with
  | PyTask t => [[_action t]]
  | PyTaskSet ts => [taskset_actions ts]
  | _ => []
  end.

Definition batches (ys : list PyObj) : list (list Action) :=
  flat_map batch_of ys.







Section Observations.

Variable dt_parse : string -> Exn + Z.
Variable is_sentinel : PyObj -> bool.

(** The loop state after [n] whole passes, when none of them left the
    loop. *)
Fixpoint after_passes (n : nat) (self : Orchestrator)
    (s : LoopState (fn self)) : option (LoopState (fn self)) :=
  match n with
  | O => Some s
  | S n' =>
      match loop_body dt_parse is_sentinel self s with
      | Continue s' => after_passes n' self s'
      | Break _ _ _ => None
      end
  end.

(** The loop states that the first [fuel] passes start from. *)
Fixpoint visited (fuel : nat) (self : Orchestrator)
    (s : LoopState (fn self)) : list (LoopState (fn self)) :=
  match fuel with
  | O => []
  | S fuel' =>
      s :: match loop_body dt_parse is_sentinel self s with
           | Continue s' => visited fuel' self s'
           | Break _ _ _ => []
           end
  end.

(** The objects the generator yielded to the loop, in order. *)
Definition yielded (fuel : nat) (self : Orchestrator)
    (s : LoopState (fn self)) : list PyObj :=
  map generation_state (visited fuel self s).

(** The objects the generator yielded during the [try] block of [handle]
    on the context [c], in order. *)
Definition replayed (fuel : nat) (self : Orchestrator)
    (c : DurableOrchestrationContext) : list PyObj :=
  match resumed c (_generate_next (fn self) (gen_start (fn self)) c PyNone) with
  | Continue s => yielded fuel self s
  | Break _ _ _ => []
  end.

(** The contexts of a run of the loop, in order: the one each pass starts
    from and, when the loop is left, the one it is left with. *)
Fixpoint contexts (fuel : nat) (self : Orchestrator)
    (s : LoopState (fn self)) : list DurableOrchestrationContext :=
  loop_context s ::
  match fuel with
  | O => []
  | S fuel' =>
      match loop_body dt_parse is_sentinel self s with
      | Continue s' => contexts fuel' self s'
      | Break _ c _ => [c]
      end
  end.

(** The contexts of the [try] block of [handle] run on the context [c]:
    the one the generator is started with, then those of the loop. *)
Definition replay_contexts (fuel : nat) (self : Orchestrator)
    (c : DurableOrchestrationContext) : list DurableOrchestrationContext :=
  match resumed c (_generate_next (fn self) (gen_start (fn self)) c PyNone) with
  | Continue s => contexts fuel self s
  | Break _ c' _ => [c; c']
  end.

(** The first OrchestratorStarted event of a history, in the order of the
    list, that is strictly later than [last_timestamp]: the processed flag
    plays no part. *)
Definition is_later_start (last_timestamp : Z) (e : HistoryEvent) : bool :=
  HistoryEventType_eqb (EventType e) OrchestratorStarted &&
  match dt_parse (Timestamp e) with
  | inr t => last_timestamp <? t
  | inl _ => false
  end.

Definition next_decision_start (last_timestamp : Z) (h : list HistoryEvent)
  : option HistoryEvent :=
  find (is_later_start last_timestamp) h.

(** The query as the specification words it: the same search among the
    events that are not marked processed. *)
Definition next_unprocessed_decision_start (last_timestamp : Z)
    (h : list HistoryEvent) : option HistoryEvent :=
  find (fun e => negb (IsProcessed e) && is_later_start last_timestamp e) h.

(** The re-anchoring step as the specification words it. *)
Definition reset_timestamp_among_unprocessed (c : DurableOrchestrationContext)
  : Exn + DurableOrchestrationContext :=
  last_timestamp <- dt_parse (Timestamp (decision_started_event c)) ;;
  match next_unprocessed_decision_start last_timestamp (histories c) with
  | None => inr (set_time (decision_started_event c) None c)
  | Some first =>
      now <- dt_parse (Timestamp first) ;;
      inr (set_time first (Some now) c)
  end.

(** The current time is the timestamp of an OrchestratorStarted event of
    the history. *)
Definition sourced_from_history (c : DurableOrchestrationContext) (t : Z) : Prop :=
  exists e, In e (histories c) /\ EventType e = OrchestratorStarted /\
            dt_parse (Timestamp e) = inr t.

(** What the constructor leaves (spec, History Model): the decision-started
    event is an OrchestratorStarted event of the history and the current
    time is its timestamp. *)
Definition anchored (c : DurableOrchestrationContext) : Prop :=
  In (decision_started_event c) (histories c) /\
  EventType (decision_started_event c) = OrchestratorStarted /\
  exists t, current_utc_datetime c = Some t /\
            dt_parse (Timestamp (decision_started_event c)) = inr t.

(** What every context of a run satisfies: the decision-started event is
    an OrchestratorStarted event of the history; a present current time is
    its timestamp; the current time is absent only when the history has no
    later decision start. *)
Definition time_invariant (c : DurableOrchestrationContext) : Prop :=
  In (decision_started_event c) (histories c) /\
  EventType (decision_started_event c) = OrchestratorStarted /\
  match current_utc_datetime c with
  | Some t => dt_parse (Timestamp (decision_started_event c)) = inr t
  | None =>
      forall last,
        dt_parse (Timestamp (decision_started_event c)) = inr last ->
        filter (is_later_start last) (histories c) = []
  end.

(** The current time of a context is absent or comes from the history
    [h]. *)
Definition absent_or_sourced (c0 c : DurableOrchestrationContext) : Prop :=
  match current_utc_datetime c with
  | Some t => sourced_from_history c0 t
  | None => True
  end.

End Observations.

(** The decision that the suspending branch builds. *)
Definition suspended_decision (self : Orchestrator)
    (c : DurableOrchestrationContext) : OrchestratorState :=
  {| is_done := false;
     output := VNone;
     state_actions := actions c;
     custom_status := customStatus self;
     error := None |}.

(** Order of simulated times: present values by [<=]; the absent time
    comes after every time and is followed by nothing else. *)
Definition time_le (a b : option Z) : Prop :=
  match a, b with
  | Some x, Some y => x <= y
  | _, None => True
  | None, Some _ => False
  end.

(** The invariant of the decision model. *)
Definition decision_invariant (d : OrchestratorState) : Prop :=
  (is_done d = true -> error d = None) /\
  (error d <> None -> is_done d = false /\ output d = VNone).

(** ** Worked scenarios *)

(** A [dt_parse] for the scenarios: a timestamp is written as a number of
    seconds, in decimal digits; every other string is rejected. *)
Definition digit_of (a : ascii) : option Z :=
  let n := Z.of_nat (nat_of_ascii a) in
  if (48 <=? n) && (n <=? 57) then Some (n - 48) else None.

Fixpoint digits (acc : Z) (s : string) : option Z :=
  match s with
  | EmptyString => Some acc
  | String a s' =>
      match digit_of a with
      | Some d => digits (10 * acc + d) s'
      | None => None
      end
  end.

Definition parse_seconds (s : string) : Exn + Z :=
  match s with
  | EmptyString => inl (Exception "String does not contain a date")
  | _ =>
      match digits 0 s with
      | Some t => inr t
      | None => inl (Exception ("Unknown string format: " ++ s)%string)
      end
  end.

(** A constructor for the scenarios: the context strings it accepts are
    listed with the context they decode to; every other string is
    rejected. *)
Fixpoint decode_table (table : list (string * DurableOrchestrationContext))
    (context_string : string) : Exn + DurableOrchestrationContext :=
  match table with
  | [] => inl (Exception "Expecting value: line 1 column 1 (char 0)")
  | (k, c) :: table' =>
      if String.eqb k context_string then inr c
      else decode_table table' context_string
  end.

(** No plain object is the sentinel. *)
Definition no_sentinel (y : PyObj) : bool := false.

(** Modelled from the spec: the operation factory [call_activity] (tasks/
    is not under src/).  The handle is bound to its action descriptor and
    reconciled against the history: COMPLETED when a completion event of
    the scheduled call is there, FAULTED when a failure event is,
    PENDING otherwise. *)
Definition call_activity (state : list HistoryEvent) (name : string)
    (input_ : Value) : Task :=
  let new_action := CallActivityAction name input_ in
  match find (fun e => HistoryEventType_eqb (EventType e) TaskScheduled
                       && String.eqb (Name e) name) state with
  | None => mkTask PENDING new_action
  | Some task_scheduled =>
      let of_this (ty : HistoryEventType) (e : HistoryEvent) :=
        HistoryEventType_eqb (EventType e) ty
        && (TaskScheduledId e =? EventId task_scheduled) in
      match find (of_this TaskCompleted) state with
      | Some task_completed =>
          mkTask (COMPLETED (Result task_completed)) new_action
      | None =>
          match find (of_this TaskFailed) state with
          | Some task_failed =>
              mkTask (FAULTED (Exception (Reason task_failed))) new_action
          | None => mkTask PENDING new_action
          end
      end
  end.

Definition callAction : Action := CallActivityAction "call" VNone.

Definition started_at (timestamp : string) (processed : bool) : HistoryEvent :=
  mkEvent OrchestratorStarted timestamp processed (-1) EmptyString (-1) VNone EmptyString.

Definition call_scheduled : HistoryEvent :=
  mkEvent TaskScheduled "1000" false 1 "call" (-1) VNone EmptyString.

Definition call_completed : HistoryEvent :=
  mkEvent TaskCompleted "1000" false 2 EmptyString 1 (VStr "42") EmptyString.

Definition call_failed : HistoryEvent :=
  mkEvent TaskFailed "1000" false 2 EmptyString 1 VNone "boom".

(** The context of a history whose first event is the OrchestratorStarted
    event at second 1000. *)
Definition context_of (later : list HistoryEvent) : DurableOrchestrationContext :=
  {| histories := started_at "1000" false :: later;
     decision_started_event := started_at "1000" false;
     current_utc_datetime := Some 1000;
     actions := [] |}.

Definition history_started : DurableOrchestrationContext := context_of [].

Definition history_completed : DurableOrchestrationContext :=
  context_of [call_scheduled; call_completed].

Definition history_failed : DurableOrchestrationContext :=
  context_of [call_scheduled; call_failed].

(** A second decision point at second 2000, marked processed. *)
Definition history_two_starts : DurableOrchestrationContext :=
  context_of [call_scheduled; call_completed; started_at "2000" true].

(** A later decision point whose timestamp is no date. *)
Definition history_bad_timestamp : DurableOrchestrationContext :=
  context_of [call_scheduled; call_completed; started_at "soon" false].

Definition scenario_contexts : string -> Exn + DurableOrchestrationContext :=
  decode_table
    [ ("started"%string, history_started);
      ("completed"%string, history_completed);
      ("failed"%string, history_failed);
      ("two starts"%string, history_two_starts);
      ("bad timestamp"%string, history_bad_timestamp) ].

(** The workflow
<<
    def await_call(context):
        result = yield context.df.call_activity("call")
        return result
>>
    with no handler around the [yield]. *)
Inductive AwaitCall : Type :=
| AwaitCall_created
| AwaitCall_at_yield
| AwaitCall_finished.

Definition await_call : Workflow :=
  {| G := AwaitCall;
     gen_start := AwaitCall_created;
     gen_send := fun g c v =>
       match g with
       | AwaitCall_created =>
           (AwaitCall_at_yield, inr (PyTask (call_activity (histories c) "call" VNone)))
       | AwaitCall_at_yield => (AwaitCall_finished, inl (StopIteration v))
       | AwaitCall_finished => (AwaitCall_finished, inl (StopIteration VNone))
       end;
     gen_throw := fun g c e => (AwaitCall_finished, inl (Raise e)) |}.

(** The workflow
<<
    def await_twice(context):
        task = context.df.call_activity("call")
        first = yield task
        second = yield task
        return second
>>
    which yields one handle two times. *)
Inductive AwaitTwice : Type :=
| AwaitTwice_created
| AwaitTwice_first (task : Task)
| AwaitTwice_second (task : Task)
| AwaitTwice_finished.

Definition await_twice : Workflow :=
  {| G := AwaitTwice;
     gen_start := AwaitTwice_created;
     gen_send := fun g c v =>
       match g with
       | AwaitTwice_created =>
           let task := call_activity (histories c) "call" VNone in
           (AwaitTwice_first task, inr (PyTask task))
       | AwaitTwice_first task => (AwaitTwice_second task, inr (PyTask task))
       | AwaitTwice_second _ => (AwaitTwice_finished, inl (StopIteration v))
       | AwaitTwice_finished => (AwaitTwice_finished, inl (StopIteration VNone))
       end;
     gen_throw := fun g c e => (AwaitTwice_finished, inl (Raise e)) |}.

(** A stand-in for [to_json_string] in the scenarios: the fields of the
    decision, one after the other. *)
Definition show_value (v : Value) : string :=
  match v with
  | VNone => "null"
  | VBool true => "true"
  | VBool false => "false"
  | VInt n => NilZero.string_of_int (Z.to_int n)
  | VStr s => s
  | VObject class_name => class_name
  end.

Definition show_action (a : Action) : string :=
  match a with
  | CallActivityAction f i => "call:" ++ f ++ ":" ++ show_value i
  | CreateTimerAction t => "timer:" ++ t
  | WaitForExternalEventAction n => "event:" ++ n
  end%string.

Definition show_batch (b : list Action) : string :=
  String.concat "," (map show_action b).

Definition show_decision (d : OrchestratorState) : string :=
  ("isDone=" ++ (if is_done d then "true" else "false")
   ++ ";actions=" ++ String.concat "|" (map show_batch (state_actions d))
   ++ ";output=" ++ show_value (output d)
   ++ ";error=" ++ match error d with Some e => e | None => "null" end)%string.

Definition has_json_form (v : Value) : bool :=
  match v with
  | VObject _ => false
  | _ => true
  end.

(** A stand-in for [to_json_string] in the scenarios: [TypeError] on an
    output or a custom status without JSON form, as of the JSON encoder;
    the fields of the decision otherwise. *)
Definition dumps (d : OrchestratorState) : Exn + string :=
  if has_json_form (output d) then
    if has_json_form (custom_status d) then inr (show_decision d)
    else inl (TypeError_not_serializable (custom_status d))
  else inl (TypeError_not_serializable (output d)).

(** ** Further observations *)


Definition is_decision_start (e : HistoryEvent) : bool :=
  HistoryEventType_eqb (EventType e) OrchestratorStarted.

(** The context with another history. *)
Definition set_histories (h : list HistoryEvent)
    (c : DurableOrchestrationContext) : DurableOrchestrationContext :=
  {| histories := h;
     decision_started_event := decision_started_event c;
     current_utc_datetime := current_utc_datetime c;
     actions := actions c |}.

(** What [_reset_timestamp] gives that a workflow can see: the exception,
    or the decision-started event and the current time. *)
Definition time_fields (r : Exn + DurableOrchestrationContext)
  : Exn + (HistoryEvent * option Z) :=
  match r with
  | inl e => inl e
  | inr c => inr (decision_started_event c, current_utc_datetime c)
  end.

(** The workflows whose body does one thing when first resumed:
<<
    def returns(context):        def raises(context):       def yields(context):
        return value                 raise e                    yield obj
        yield                        yield
>>
    A generator that is resumed after its one [yield] returns [None]. *)
Definition one_step (first : PyRaise + PyObj) : Workflow :=
  {| G := bool;
     gen_start := false;
     gen_send := fun started c v =>
       if started then (true, inl (StopIteration VNone)) else (true, first);
     gen_throw := fun started c e => (true, inl (Raise e)) |}.

(** A decision start at second 3000 whose timestamp is read, after one at
    second 2000 and before one whose timestamp is no date. *)
Definition history_three_starts : DurableOrchestrationContext :=
  context_of [started_at "2000" false; call_scheduled; started_at "3000" false].

Definition history_late_bad_timestamp : DurableOrchestrationContext :=
  context_of [started_at "2000" false; started_at "soon" false].


(** [KeyboardInterrupt()], which is no [Exception]. *)
Definition KeyboardInterrupt : Exn :=
  {| is_Exception := false; str := EmptyString |}.

(** ** The reading of the day *)

(** What the re-anchoring leaves in a context [c] of a run on the history
    of [c0]: the history itself; for decision-started event an
    OrchestratorStarted event of it; for current time the reading of the
    timestamp of that event, or nothing, and nothing only when the history
    has no decision start later than that event. *)
Definition time_reading (dt_parse : string -> Exn + Z)
    (c0 c : DurableOrchestrationContext) : Prop :=
  histories c = histories c0 /\
  In (decision_started_event c) (histories c0) /\
  EventType (decision_started_event c) = OrchestratorStarted /\
  match current_utc_datetime c with
  | Some t => dt_parse (Timestamp (decision_started_event c)) = inr t
  | None =>
      forall last,
        dt_parse (Timestamp (decision_started_event c)) = inr last ->
        next_decision_start dt_parse last (histories c0) = None
  end.

(** A [dt_parse] that fills as dateutil does: a timestamp of four digits is
    a year, and the month and the day that it lacks are those of the day
    of the run, [today] (the day of the year).  Instants are counted in
    days, 366 to the year.  Every other string is rejected. *)
Definition parse_year (today : Z) (s : string) : Exn + Z :=
  if (String.length s =? 4)%nat then
    match digits 0 s with
    | Some year => inr (366 * year + today)
    | None => inl (Exception ("Unknown string format: " ++ s)%string)
    end
  else inl (Exception ("Unknown string format: " ++ s)%string).

(** The constructor on the day [today], for the context string of the
    history with the two decision starts, of the years 1000 and 2000. *)
Definition contexts_on (today : Z) : string -> Exn + DurableOrchestrationContext :=
  decode_table
    [ ("two starts"%string,
       set_time (started_at "1000" false) (Some (366 * 1000 + today))
         history_two_starts) ].

(** The workflow
<<
    def await_then_now(context):
        yield context.df.call_activity("call")
        return context.df.current_utc_datetime.toordinal()
>>
    which returns the current time, as a number. *)
Definition await_then_now : Workflow :=
  {| G := AwaitCall;
     gen_start := AwaitCall_created;
     gen_send := fun g c v =>
       match g with
       | AwaitCall_created =>
           (AwaitCall_at_yield, inr (PyTask (call_activity (histories c) "call" VNone)))
       | AwaitCall_at_yield =>
           (AwaitCall_finished,
            inl match current_utc_datetime c with
                | Some now => StopIteration (VInt now)
                | None => Raise (AttributeError "NoneType" "toordinal")
                end)
       | AwaitCall_finished => (AwaitCall_finished, inl (StopIteration VNone))
       end;
     gen_throw := fun g c e => (AwaitCall_finished, inl (Raise e)) |}.




(** * Properties *)

(** ** The frame of the helpers *)

Lemma add_to_actions_actions (y : PyObj) (c : DurableOrchestrationContext) :
  actions (_add_to_actions y c) = actions c ++ batch_of y.
Proof.
  destruct y; simpl; rewrite ?app_nil_r; reflexivity.
Qed.

Lemma add_to_actions_frame (y : PyObj) (c : DurableOrchestrationContext) :
  histories (_add_to_actions y c) = histories c /\
  decision_started_event (_add_to_actions y c) = decision_started_event c /\
  current_utc_datetime (_add_to_actions y c) = current_utc_datetime c.
Proof. destruct y; simpl; auto. Qed.

Lemma bind_inr {E A B : Type} (m : E + A) (k : A -> E + B) (b : B) :
  bind m k = inr b -> exists a, m = inr a /\ k a = inr b.
Proof.
  destruct m as [e | a]; simpl; intros H; [discriminate | eauto].
Qed.

Section Properties.

Variable dt_parse : string -> Exn + Z.
Variable new_context : string -> Exn + DurableOrchestrationContext.
Variable is_sentinel : PyObj -> bool.
Variable to_json_string : OrchestratorState -> Exn + string.

Local Abbreviation reset_timestamp := (_reset_timestamp dt_parse).
Local Abbreviation body := (loop_body dt_parse is_sentinel).
Local Abbreviation while := (while_not_suspended dt_parse is_sentinel).
Local Abbreviation suspends := (should_suspend is_sentinel).

Lemma reset_timestamp_frame c c' :
  reset_timestamp c = inr c' ->
  histories c' = histories c /\ actions c' = actions c.
Proof.
  unfold _reset_timestamp. intros H.
  apply bind_inr in H as (last & _ & H).
  apply bind_inr in H as (evs & _ & H).
  destruct evs as [| first evs].
  - inversion H; subst; simpl; auto.
  - apply bind_inr in H as (now & _ & H).
    inversion H; subst; simpl; auto.
Qed.

Lemma resumed_continue {W : Workflow} c (r : G W * (PyRaise + PyObj)) s' :
  resumed c r = Continue s' -> loop_context s' = c.
Proof.
  destruct r as [g' [raised | y]]; simpl; intros H; inversion H; reflexivity.
Qed.

Lemma resumed_break {W : Workflow} c (r : G W * (PyRaise + PyObj)) g c' l :
  resumed c r = Break g c' l -> c' = c /\ exists raised, l = inl raised.
Proof.
  destruct r as [g' [raised | y]]; simpl; intros H; inversion H; eauto.
Qed.

(** One pass appends the batch of the yielded object, once, whichever way
    the pass ends. *)
Lemma body_continue_actions self s s' :
  body self s = Continue s' ->
  actions (loop_context s') =
  actions (loop_context s) ++ batch_of (generation_state s).
Proof.
  unfold loop_body. intros H.
  destruct (suspends (generation_state s)); [discriminate |].
  destruct (faulted_exception (generation_state s)).
  - apply resumed_continue in H. rewrite H. apply add_to_actions_actions.
  - destruct (reset_timestamp _) as [e | c'] eqn:Hr; [discriminate |].
    apply resumed_continue in H. rewrite H.
    apply reset_timestamp_frame in Hr as [_ ->].
    apply add_to_actions_actions.
Qed.

Lemma body_break_actions self s g c l :
  body self s = Break g c l ->
  actions c = actions (loop_context s) ++ batch_of (generation_state s).
Proof.
  unfold loop_body. intros H.
  destruct (suspends (generation_state s)).
  - inversion H; subst. apply add_to_actions_actions.
  - destruct (faulted_exception (generation_state s)).
    + apply resumed_break in H as [-> _]. apply add_to_actions_actions.
    + destruct (reset_timestamp _) as [e | c'] eqn:Hr.
      * inversion H; subst. apply add_to_actions_actions.
      * apply resumed_break in H as [-> _].
        apply reset_timestamp_frame in Hr as [_ ->].
        apply add_to_actions_actions.
Qed.

Lemma body_break_decision self s g c d :
  body self s = Break g c (inr d) ->
  suspends (generation_state s) = true /\ d = suspended_decision self c /\
  c = _add_to_actions (generation_state s) (loop_context s).
Proof.
  unfold loop_body. intros H.
  destruct (suspends (generation_state s)).
  - inversion H; subst. auto.
  - destruct (faulted_exception (generation_state s)).
    + apply resumed_break in H as [_ [raised Hl]]. discriminate.
    + destruct (reset_timestamp _) as [e | c'] eqn:Hr.
      * inversion H.
      * apply resumed_break in H as [_ [raised Hl]]. discriminate.
Qed.

Lemma body_suspends self s :
  suspends (generation_state s) = true ->
  body self s =
  Break (loop_generator s)
    (_add_to_actions (generation_state s) (loop_context s))
    (inr (suspended_decision self
            (_add_to_actions (generation_state s) (loop_context s)))).
Proof. unfold loop_body. intros ->. reflexivity. Qed.

(** ** The loop *)

Lemma while_fuel_mono fuel fuel' self s r :
  while fuel self s = Some r -> (fuel <= fuel')%nat ->
  while fuel' self s = Some r.
Proof.
  revert fuel' s. induction fuel as [| fuel IH]; intros fuel' s H Hle.
  - discriminate.
  - destruct fuel' as [| fuel']; [lia |].
    simpl in *. destruct (body self s) as [s' | g c l]; auto.
    apply IH; [assumption | lia].
Qed.

Lemma while_actions fuel self s g c l :
  while fuel self s = Some (g, c, l) ->
  actions c =
  actions (loop_context s) ++
  batches (yielded dt_parse is_sentinel fuel self s).
Proof.
  revert s. induction fuel as [| fuel IH]; intros s H; [discriminate |].
  unfold yielded in *. simpl in *.
  destruct (body self s) as [s' | g' c' l'] eqn:Hb.
  - rewrite (IH _ H). apply body_continue_actions in Hb. rewrite Hb.
    unfold batches. simpl. now rewrite app_assoc.
  - inversion H; subst. apply body_break_actions in Hb. rewrite Hb.
    unfold batches. simpl. now rewrite app_nil_r.
Qed.

Lemma while_decision fuel self s g c d :
  while fuel self s = Some (g, c, inr d) -> d = suspended_decision self c.
Proof.
  revert s. induction fuel as [| fuel IH]; intros s H; [discriminate |].
  simpl in H. destruct (body self s) as [s' | g' c' l'] eqn:Hb.
  - eauto.
  - inversion H; subst. now apply body_break_decision in Hb.
Qed.

(** A run that reaches, after [n] passes, an object on which the
    suspension predicate holds, leaves the loop there. *)
Lemma while_reaches_suspension n self s0 s fuel :
  after_passes dt_parse is_sentinel n self s0 = Some s ->
  suspends (generation_state s) = true ->
  (n < fuel)%nat ->
  while fuel self s0 =
  Some (loop_generator s,
        _add_to_actions (generation_state s) (loop_context s),
        inr (suspended_decision self
               (_add_to_actions (generation_state s) (loop_context s)))).
Proof.
  revert s0 fuel. induction n as [| n IH]; intros s0 fuel Hreach Hs Hlt.
  - simpl in Hreach. inversion Hreach; subst.
    destruct fuel as [| fuel]; [lia |]. simpl.
    now rewrite (body_suspends self s Hs).
  - destruct fuel as [| fuel]; [lia |]. simpl in *.
    destruct (body self s0) as [s' | g c l]; [| discriminate].
    apply IH; [assumption | assumption | lia].
Qed.

(** ** Suspension *)

(** C1. When the run of [handle] reaches, after any number of passes of
    the loop, a yielded object on which the suspension predicate holds,
    [handle] returns (with any fuel that covers those passes) the decision
    with [is_done] false, no output, no error, and for actions the batches
    accumulated up to and with that object, in yield order.  In particular,
    on the history of the single OrchestratorStarted event, the workflow
    that at once yields one pending call gets is_done false, actions
    [[callAction]] and no error. *)
Theorem suspension_decision :
  (forall (self : Orchestrator) (context_string : string) c0 s0 n s fuel,
      new_context context_string = inr c0 ->
      resumed c0 (_generate_next (fn self) (gen_start (fn self)) c0 PyNone)
      = Continue s0 ->
      after_passes dt_parse is_sentinel n self s0 = Some s ->
      suspends (generation_state s) = true ->
      (n < fuel)%nat ->
      exists self',
        orchestration_state dt_parse new_context is_sentinel fuel self
          context_string
        = Some (self',
                inr {| is_done := false;
                       output := VNone;
                       state_actions :=
                         actions c0 ++
                         batches (yielded dt_parse is_sentinel (S n) self s0);
                       custom_status := customStatus self;
                       error := None |})) /\
  (forall (context_string : string) e now fuel,
      EventType e = OrchestratorStarted ->
      new_context context_string
      = inr {| histories := [e];
               decision_started_event := e;
               current_utc_datetime := now;
               actions := [] |} ->
      (0 < fuel)%nat ->
      exists self',
        orchestration_state dt_parse new_context is_sentinel fuel
          (Orchestrator_init await_call) context_string
        = Some (self',
                inr {| is_done := false;
                       output := VNone;
                       state_actions := [[callAction]];
                       custom_status := VNone;
                       error := None |})).
Proof.
  assert (General : forall (self : Orchestrator) (context_string : string)
                      c0 s0 n s fuel,
      new_context context_string = inr c0 ->
      resumed c0 (_generate_next (fn self) (gen_start (fn self)) c0 PyNone)
      = Continue s0 ->
      after_passes dt_parse is_sentinel n self s0 = Some s ->
      suspends (generation_state s) = true ->
      (n < fuel)%nat ->
      exists self',
        orchestration_state dt_parse new_context is_sentinel fuel self
          context_string
        = Some (self',
                inr {| is_done := false;
                       output := VNone;
                       state_actions :=
                         actions c0 ++
                         batches (yielded dt_parse is_sentinel (S n) self s0);
                       custom_status := customStatus self;
                       error := None |})).
  { intros self cs c0 s0 n s fuel Hnew Hres Hreach Hs Hlt.
    pose proof (while_reaches_suspension n self s0 s (S n) Hreach Hs
                  (Nat.lt_succ_diag_r n)) as Hrun.
    pose proof (while_actions _ _ _ _ _ _ Hrun) as Hacts.
    apply (while_fuel_mono _ fuel) in Hrun; [| lia].
    unfold orchestration_state, try_block. rewrite Hnew, Hres, Hrun.
    eexists. simpl. unfold suspended_decision. rewrite Hacts.
    now rewrite (resumed_continue _ _ _ Hres). }
  split; [exact General |].
  intros cs e now fuel He Hnew Hlt.
  set (c0 := {| histories := [e]; decision_started_event := e;
                current_utc_datetime := now; actions := [] |}) in *.
  set (s0 := mkLoop (W := await_call) AwaitCall_at_yield
               (PyTask (mkTask PENDING callAction)) c0).
  destruct (General (Orchestrator_init await_call) cs c0 s0 O s0 fuel Hnew)
    as [self' Hrun]; try assumption; try reflexivity.
  - simpl. unfold call_activity. simpl. rewrite He. reflexivity.
  - exists self'. exact Hrun.
Qed.

(** ** The invariant of the decision *)

Lemma orchestration_state_invariant fuel (self : Orchestrator)
    (context_string : string) self' d :
  orchestration_state dt_parse new_context is_sentinel fuel self
    context_string = Some (self', inr d) ->
  decision_invariant d.
Proof.
  intros H.
  unfold orchestration_state in H.
  destruct (new_context context_string) as [e | c]; [discriminate |].
  destruct (try_block _ _ _ _ _) as [[[g c'] l] |] eqn:Htry; [| discriminate].
  inversion H as [[Hself Hd]]. clear H Hself.
  assert (Hl : forall d', l = inr d' -> d' = suspended_decision self c').
  { intros d' ->. unfold try_block in Htry.
    destruct (resumed _ _) as [s | g0 c0 l0] eqn:Hres.
    - now apply while_decision in Htry.
    - apply resumed_break in Hres as [_ [raised Hl0]].
      inversion Htry; subst. discriminate. }
  unfold decision_invariant.
  destruct l as [[value | e] | d']; simpl in Hd.
  - inversion Hd; subst; simpl. split; [reflexivity | congruence].
  - destruct (is_Exception e); inversion Hd; subst; simpl.
    split; [discriminate | auto].
  - inversion Hd; subst. rewrite (Hl d eq_refl). simpl.
    split; [reflexivity | congruence].
Qed.

(** C2. Every decision that [handle] returns, from whichever of its three
    construction sites, for every context string and workflow: [is_done]
    true implies no error, and an error implies [is_done] false and no
    output. *)
Theorem decision_invariant_holds :
  forall fuel (self : Orchestrator) (context_string : string) self' d,
    orchestration_state dt_parse new_context is_sentinel fuel self
      context_string = Some (self', inr d) ->
    decision_invariant d.
Proof.
  intros fuel self cs self' d H.
  exact (orchestration_state_invariant fuel self cs self' d H).
Qed.

(** ** The actions of the decision *)


Lemma try_block_decision fuel self c0 g c d :
  try_block dt_parse is_sentinel fuel self c0 = Some (g, c, inr d) ->
  d = suspended_decision self c.
Proof.
  unfold try_block.
  destruct (resumed _ _) as [s0 | g0 c1 l0] eqn:Hres; intros H.
  - now apply while_decision in H.
  - apply resumed_break in Hres as [_ [raised Hl]].
    inversion H; subst. discriminate.
Qed.

Lemma except_clauses_actions self c l d :
  (forall d', l = inr d' -> d' = suspended_decision self c) ->
  except_clauses self c l = inr d ->
  state_actions d = actions c.
Proof.
  intros Hl H. destruct l as [[value | e] | d']; simpl in H.
  - inversion H; reflexivity.
  - destruct (is_Exception e); inversion H; reflexivity.
  - inversion H; subst. now rewrite (Hl d eq_refl).
Qed.





(** ** Faults *)

(** C6. When the yielded object is a faulted Task or TaskSet, the pass
    throws the recorded exception into the generator exactly as it stands
    after that yield, and goes on with what the generator does next; the
    context the generator sees and the next pass starts from has the
    decision-started event and the current time of before: the pass does
    not call [_reset_timestamp]. *)
Theorem fault_reinjection :
  forall (self : Orchestrator) (s : LoopState (fn self)) exc,
    (exists t, generation_state s = PyTask t /\ task_outcome t = FAULTED exc) \/
    (exists ts, generation_state s = PyTaskSet ts /\
                taskset_outcome ts = FAULTED exc) ->
    let c := _add_to_actions (generation_state s) (loop_context s) in
    decision_started_event c = decision_started_event (loop_context s) /\
    current_utc_datetime c = current_utc_datetime (loop_context s) /\
    match gen_throw (fn self) (loop_generator s) c exc with
    | (g', inr y) =>
        body self s = Continue (mkLoop g' y c) /\
        forall fuel, while (S fuel) self s = while fuel self (mkLoop g' y c)
    | (g', inl raised) =>
        body self s = Break g' c (inl raised) /\
        forall fuel, while (S fuel) self s = Some (g', c, inl raised)
    end.
Proof.
  intros self s exc Hf c.
  destruct (add_to_actions_frame (generation_state s) (loop_context s))
    as (_ & Hd & Ht).
  split; [exact Hd |]. split; [exact Ht |].
  assert (Hb : body self s =
               resumed c (gen_throw (fn self) (loop_generator s) c exc)).
  { unfold loop_body. fold c.
    destruct Hf as [(t & Hy & Ho) | (ts & Hy & Ho)]; rewrite Hy;
      [destruct t as [o a] | destruct ts as [o a]]; simpl in Ho; subst o;
      reflexivity. }
  destruct (gen_throw _ _ _ _) as [g' [raised | y]] eqn:Hthrow; simpl in Hb;
    (split; [exact Hb | intros fuel; simpl; now rewrite Hb]).
Qed.

(** ** Re-anchoring the simulated time *)

Lemma newer_is_later last e b :
  is_newer_decision_start dt_parse last e = inr b ->
  b = is_later_start dt_parse last e.
Proof.
  unfold is_newer_decision_start, is_later_start.
  destruct (HistoryEventType_eqb _ _); simpl.
  - destruct (dt_parse (Timestamp e)); simpl; intros H; now inversion H.
  - intros H; now inversion H.
Qed.

Lemma filter_raising_filter last h evs :
  filter_raising (is_newer_decision_start dt_parse last) h = inr evs ->
  evs = filter (is_later_start dt_parse last) h.
Proof.
  revert evs. induction h as [| e h IH]; simpl; intros evs H.
  - now inversion H.
  - apply bind_inr in H as (b & Hb & H).
    apply bind_inr in H as (rest & Hrest & H).
    apply newer_is_later in Hb. rewrite <- Hb, <- (IH rest Hrest).
    now inversion H.
Qed.

Lemma filter_raising_total last h :
  (forall e, In e h -> EventType e = OrchestratorStarted ->
             exists t, dt_parse (Timestamp e) = inr t) ->
  filter_raising (is_newer_decision_start dt_parse last) h
  = inr (filter (is_later_start dt_parse last) h).
Proof.
  induction h as [| e h IH]; simpl; intros Hparse; [reflexivity |].
  rewrite IH by (intros; apply Hparse; auto). simpl.
  unfold is_newer_decision_start, is_later_start.
  destruct (HistoryEventType_eqb _ _) eqn:Hty; simpl; [| reflexivity].
  destruct (Hparse e (or_introl eq_refl)) as [t Ht].
  - now destruct (EventType e).
  - rewrite Ht. reflexivity.
Qed.

Lemma find_filter {A : Type} (p : A -> bool) (l : list A) :
  find p l = hd_error (filter p l).
Proof.
  induction l as [| x l IH]; simpl; [reflexivity |].
  destruct (p x); simpl; auto.
Qed.

Lemma is_later_start_true last e :
  is_later_start dt_parse last e = true ->
  EventType e = OrchestratorStarted /\
  exists t, dt_parse (Timestamp e) = inr t /\ last < t.
Proof.
  unfold is_later_start. intros H.
  apply andb_prop in H as [Hty Ht]. split.
  - now destruct (EventType e).
  - destruct (dt_parse (Timestamp e)) as [x | t]; [discriminate |].
    exists t. split; [reflexivity | now apply Z.ltb_lt].
Qed.

(** What a successful [_reset_timestamp] has done. *)
Lemma reset_timestamp_inr c c' :
  reset_timestamp c = inr c' ->
  exists last,
    dt_parse (Timestamp (decision_started_event c)) = inr last /\
    match filter (is_later_start dt_parse last) (histories c) with
    | [] => c' = set_time (decision_started_event c) None c
    | first :: _ =>
        exists now, dt_parse (Timestamp first) = inr now /\
                    c' = set_time first (Some now) c
    end.
Proof.
  unfold _reset_timestamp. intros H.
  apply bind_inr in H as (last & Hlast & H).
  apply bind_inr in H as (evs & Hevs & H).
  apply filter_raising_filter in Hevs. subst evs.
  exists last. split; [assumption |].
  destruct (filter _ _) as [| first rest].
  - now inversion H.
  - apply bind_inr in H as (now & Hnow & H). exists now. now inversion H.
Qed.

(** C7, as the code has it.  With the timestamps of the decision-started
    event and of the OrchestratorStarted events readable,
    [_reset_timestamp] looks through all the events of the history, in
    their order and whatever their processed flag, for the first
    OrchestratorStarted event whose timestamp is strictly after that of the
    current decision-started event.  When there is one, it becomes the
    decision-started event and the current time becomes its timestamp;
    when there is none, the current time becomes [None] and the
    decision-started event stays.  History and actions stay in both
    cases. *)
Theorem reset_timestamp_selects :
  forall c last,
    dt_parse (Timestamp (decision_started_event c)) = inr last ->
    (forall e, In e (histories c) -> EventType e = OrchestratorStarted ->
               exists t, dt_parse (Timestamp e) = inr t) ->
    match next_decision_start dt_parse last (histories c) with
    | Some first =>
        exists now,
          dt_parse (Timestamp first) = inr now /\ last < now /\
          In first (histories c) /\
          EventType first = OrchestratorStarted /\
          reset_timestamp c =
          inr {| histories := histories c;
                 decision_started_event := first;
                 current_utc_datetime := Some now;
                 actions := actions c |}
    | None =>
        reset_timestamp c =
        inr {| histories := histories c;
               decision_started_event := decision_started_event c;
               current_utc_datetime := None;
               actions := actions c |}
    end.
Proof.
  intros c last Hlast Hparse.
  unfold next_decision_start.
  destruct (find _ _) as [first |] eqn:Hfind.
  - pose proof (find_some _ _ Hfind) as [Hin Hlater].
    apply is_later_start_true in Hlater as (Hty & now & Hnow & Hlt).
    exists now. repeat split; try assumption.
    unfold _reset_timestamp. rewrite Hlast. simpl.
    rewrite (filter_raising_total last _ Hparse). simpl.
    rewrite find_filter in Hfind.
    destruct (filter _ _) as [| x rest]; [discriminate |].
    inversion Hfind; subst x. rewrite Hnow. reflexivity.
  - unfold _reset_timestamp. rewrite Hlast. simpl.
    rewrite (filter_raising_total last _ Hparse). simpl.
    rewrite find_filter in Hfind.
    destruct (filter _ _) as [| x rest]; [reflexivity | discriminate].
Qed.

(** ** The simulated time along a run *)

Lemma time_le_refl a : time_le a a.
Proof. destruct a; simpl; [lia | exact I]. Qed.

Lemma anchored_invariant c :
  anchored dt_parse c -> time_invariant dt_parse c.
Proof.
  intros (Hin & Hty & t & Hnow & Ht). unfold time_invariant.
  rewrite Hnow. auto.
Qed.

Lemma add_to_actions_invariant y c :
  time_invariant dt_parse c -> time_invariant dt_parse (_add_to_actions y c).
Proof.
  unfold time_invariant.
  destruct (add_to_actions_frame y c) as (-> & -> & ->). auto.
Qed.

Lemma reset_timestamp_invariant c c' :
  time_invariant dt_parse c ->
  reset_timestamp c = inr c' ->
  time_invariant dt_parse c' /\
  time_le (current_utc_datetime c) (current_utc_datetime c') /\
  histories c' = histories c.
Proof.
  intros (Hin & Hty & Hnow) H.
  apply reset_timestamp_inr in H as (last & Hlast & H).
  destruct (filter _ _) as [| first rest] eqn:Hfilter.
  - subst c'. unfold time_invariant. simpl. repeat split; auto.
    + intros last' Hlast'. rewrite Hlast in Hlast'.
      inversion Hlast'; subst. assumption.
    + destruct (current_utc_datetime c); exact I.
  - destruct H as (now & Hnow' & ->).
    assert (Hfirst : In first (filter (is_later_start dt_parse last)
                                 (histories c)))
      by (rewrite Hfilter; now left).
    apply filter_In in Hfirst as [Hfin Hlater].
    apply is_later_start_true in Hlater as (Hfty & t & Ht & Hlt).
    rewrite Hnow' in Ht. inversion Ht; subst t.
    unfold time_invariant. simpl. repeat split; auto.
    destruct (current_utc_datetime c) as [t0 |].
    + rewrite Hlast in Hnow. inversion Hnow; subst. simpl. lia.
    + rewrite (Hnow last Hlast) in Hfilter. discriminate.
Qed.

Lemma body_continue_time self s s' :
  time_invariant dt_parse (loop_context s) ->
  body self s = Continue s' ->
  time_invariant dt_parse (loop_context s') /\
  time_le (current_utc_datetime (loop_context s))
    (current_utc_datetime (loop_context s')) /\
  histories (loop_context s') = histories (loop_context s).
Proof.
  intros Hinv H.
  apply (add_to_actions_invariant (generation_state s)) in Hinv.
  destruct (add_to_actions_frame (generation_state s) (loop_context s))
    as (Hh & _ & Ht).
  unfold loop_body in H.
  destruct (suspends (generation_state s)); [discriminate |].
  destruct (faulted_exception (generation_state s)).
  - apply resumed_continue in H. rewrite H, Ht, Hh.
    split; [assumption | split; [apply time_le_refl | reflexivity]].
  - destruct (reset_timestamp _) as [e | c'] eqn:Hr; [discriminate |].
    apply resumed_continue in H. rewrite H.
    apply (reset_timestamp_invariant _ _ Hinv) in Hr as (Hinv' & Hle & Hh').
    rewrite Ht in Hle. rewrite Hh', Hh. auto.
Qed.

Lemma body_break_time self s g c l :
  time_invariant dt_parse (loop_context s) ->
  body self s = Break g c l ->
  time_invariant dt_parse c /\
  time_le (current_utc_datetime (loop_context s)) (current_utc_datetime c) /\
  histories c = histories (loop_context s).
Proof.
  intros Hinv H.
  apply (add_to_actions_invariant (generation_state s)) in Hinv.
  destruct (add_to_actions_frame (generation_state s) (loop_context s))
    as (Hh & _ & Ht).
  assert (Hsame : forall c1,
             c1 = _add_to_actions (generation_state s) (loop_context s) ->
             time_invariant dt_parse c1 /\
             time_le (current_utc_datetime (loop_context s))
               (current_utc_datetime c1) /\
             histories c1 = histories (loop_context s)).
  { intros c1 ->. rewrite Ht, Hh.
    split; [assumption | split; [apply time_le_refl | reflexivity]]. }
  unfold loop_body in H.
  destruct (suspends (generation_state s)).
  - inversion H; subst. now apply Hsame.
  - destruct (faulted_exception (generation_state s)).
    + apply resumed_break in H as [-> _]. now apply Hsame.
    + destruct (reset_timestamp _) as [e | c'] eqn:Hr.
      * inversion H; subst. now apply Hsame.
      * apply resumed_break in H as [-> _].
        apply (reset_timestamp_invariant _ _ Hinv) in Hr
          as (Hinv' & Hle & Hh').
        rewrite Ht in Hle. rewrite Hh', Hh. auto.
Qed.

Lemma contexts_head fuel self s :
  exists rest,
    contexts dt_parse is_sentinel fuel self s = loop_context s :: rest.
Proof. destruct fuel; simpl; eauto. Qed.

Lemma contexts_monotone fuel self s :
  time_invariant dt_parse (loop_context s) ->
  Sorted time_le
    (map current_utc_datetime (contexts dt_parse is_sentinel fuel self s)) /\
  Forall (fun c => time_invariant dt_parse c /\
                   histories c = histories (loop_context s))
    (contexts dt_parse is_sentinel fuel self s).
Proof.
  revert s. induction fuel as [| fuel IH]; intros s Hinv; simpl.
  - split.
    + apply Sorted_cons; [apply Sorted_nil | apply HdRel_nil].
    + apply Forall_cons; [split; [assumption | reflexivity] | apply Forall_nil].
  - destruct (body self s) as [s' | g c l] eqn:Hb.
    + destruct (body_continue_time _ _ _ Hinv Hb) as (Hinv' & Hle & Hh).
      destruct (IH s' Hinv') as [Hsorted Hall].
      destruct (contexts_head fuel self s') as [rest Hrest].
      rewrite Hrest in *. simpl in *. split.
      * apply Sorted_cons; [assumption | apply HdRel_cons; assumption].
      * apply Forall_cons; [split; [assumption | reflexivity] |].
        eapply Forall_impl; [| exact Hall].
        intros c [Hc Hhc]. split; [assumption | congruence].
    + destruct (body_break_time _ _ _ _ _ Hinv Hb) as (Hinv' & Hle & Hh).
      simpl. split.
      * apply Sorted_cons; [| apply HdRel_cons; assumption].
        apply Sorted_cons; [apply Sorted_nil | apply HdRel_nil].
      * apply Forall_cons; [split; [assumption | reflexivity] |].
        apply Forall_cons; [split; assumption | apply Forall_nil].
Qed.

Lemma time_invariant_reading c0 c :
  time_invariant dt_parse c /\ histories c = histories c0 ->
  time_reading dt_parse c0 c /\ absent_or_sourced dt_parse c0 c.
Proof.
  intros [(Hin & Hty & Hnow) Hh]. split.
  - unfold time_reading. rewrite <- Hh.
    split; [reflexivity |]. split; [assumption |]. split; [assumption |].
    destruct (current_utc_datetime c) as [t |]; [assumption |].
    intros last Hlast. unfold next_decision_start.
    now rewrite find_filter, (Hnow last Hlast).
  - unfold absent_or_sourced.
    destruct (current_utc_datetime c) as [t |]; [| exact I].
    exists (decision_started_event c). rewrite <- Hh. auto.
Qed.

(** C8, as the code has it.  Along one invocation, starting from the
    context as the constructor leaves it, every context the workflow is
    resumed with has the history unchanged and an OrchestratorStarted event
    of it for decision-started event; its current simulated time is either
    what [dt_parse] reads in the timestamp of that event, or absent
    ([None]), and it is absent only when the history has no decision start
    later than that event; from one context to the next the present values
    do not decrease, and once the time is absent it stays absent. *)
Theorem simulated_time_monotone :
  forall fuel (self : Orchestrator) c0,
    anchored dt_parse c0 ->
    Sorted time_le
      (map current_utc_datetime
         (replay_contexts dt_parse is_sentinel fuel self c0)) /\
    Forall (absent_or_sourced dt_parse c0)
      (replay_contexts dt_parse is_sentinel fuel self c0) /\
    Forall (time_reading dt_parse c0)
      (replay_contexts dt_parse is_sentinel fuel self c0).
Proof.
  intros fuel self c0 Hanch.
  pose proof (anchored_invariant _ Hanch) as Hinv.
  unfold replay_contexts.
  destruct (resumed _ _) as [s0 | g c' l] eqn:Hres.
  - pose proof (resumed_continue _ _ _ Hres) as Hc0.
    rewrite <- Hc0 in Hinv.
    destruct (contexts_monotone fuel self s0 Hinv) as [Hsorted Hall].
    rewrite Hc0 in Hall.
    split; [assumption |]. split.
    + eapply Forall_impl; [| exact Hall].
      intros c Hc. now apply time_invariant_reading.
    + eapply Forall_impl; [| exact Hall].
      intros c Hc. now apply time_invariant_reading.
  - apply resumed_break in Hres as [-> _]. simpl.
    destruct (time_invariant_reading c0 c0 (conj Hinv eq_refl)) as [Hr Hs].
    split; [| split].
    + apply Sorted_cons; [| apply HdRel_cons, time_le_refl].
      apply Sorted_cons; [apply Sorted_nil | apply HdRel_nil].
    + apply Forall_cons; [assumption |].
      apply Forall_cons; [assumption | apply Forall_nil].
    + apply Forall_cons; [assumption |].
      apply Forall_cons; [assumption | apply Forall_nil].
Qed.

(** ** What leaves [handle] *)

Local Abbreviation handle_ :=
  (handle dt_parse new_context is_sentinel to_json_string).

(** ** Determinism *)

Lemma while_instance_irrelevant fuel W st d1 g1 d2 g2 (s : LoopState W) :
  while fuel (mkOrchestrator W st d1 g1) s =
  while fuel (mkOrchestrator W st d2 g2) s.
Proof.
  revert s. induction fuel as [| fuel IH]; intros s; [reflexivity |].
  simpl.
  change (body (mkOrchestrator W st d2 g2) s)
    with (body (mkOrchestrator W st d1 g1) s).
  destruct (body (mkOrchestrator W st d1 g1) s); [apply IH | reflexivity].
Qed.

Lemma try_block_fuel_mono fuel fuel' self c r :
  try_block dt_parse is_sentinel fuel self c = Some r -> (fuel <= fuel')%nat ->
  try_block dt_parse is_sentinel fuel' self c = Some r.
Proof.
  unfold try_block. destruct (resumed _ _); [| auto].
  apply while_fuel_mono.
Qed.

Lemma handle_instance_irrelevant W st d1 g1 d2 g2 f1 f2
    (context_string : string) self1' self2' r1 r2 :
  handle_ f1 (mkOrchestrator W st d1 g1) context_string = Some (self1', r1) ->
  handle_ f2 (mkOrchestrator W st d2 g2) context_string = Some (self2', r2) ->
  r1 = r2.
Proof.
  unfold handle, orchestration_state.
  destruct (new_context context_string) as [e | c].
  - intros H1 H2. inversion H1; inversion H2; subst. reflexivity.
  - destruct (try_block dt_parse is_sentinel f1 _ c) as [[[ga ca] la] |] eqn:T1;
      [| discriminate].
    destruct (try_block dt_parse is_sentinel f2 _ c) as [[[gb cb] lb] |] eqn:T2;
      [| discriminate].
    apply (try_block_fuel_mono _ (Nat.max f1 f2)) in T1; [| lia].
    apply (try_block_fuel_mono _ (Nat.max f1 f2)) in T2; [| lia].
    assert (Hsame : try_block dt_parse is_sentinel (Nat.max f1 f2)
                      (mkOrchestrator W st d1 g1) c
                    = try_block dt_parse is_sentinel (Nat.max f1 f2)
                        (mkOrchestrator W st d2 g2) c).
    { unfold try_block. simpl. destruct (resumed _ _); [| reflexivity].
      apply while_instance_irrelevant. }
    rewrite Hsame, T2 in T1. inversion T1; subst.
    intros H1 H2. inversion H1; inversion H2; subst. reflexivity.
Qed.

(** C10, as the code has it.  For a fixed context string and a fixed
    workflow, and with the constructor and [dt_parse] reading the same at
    both invocations (as on one day, or when every timestamp carries its
    whole date), what [handle] returns is the same at every invocation that
    returns: on two instances of the workflow with the same custom status,
    whatever either holds from earlier invocations; on the new instances
    that [create] builds at each call; and on one instance used again. *)
Theorem handle_deterministic :
  (forall (context_string : string) f1 f2 (self1 self2 : Orchestrator)
          self1' self2' r1 r2,
      fn self1 = fn self2 ->
      customStatus self1 = customStatus self2 ->
      handle_ f1 self1 context_string = Some (self1', r1) ->
      handle_ f2 self2 context_string = Some (self2', r2) ->
      r1 = r2) /\
  (forall (context_string : string) f1 f2 (W : Workflow) r1 r2,
      create dt_parse new_context is_sentinel to_json_string f1 W
        context_string = Some r1 ->
      create dt_parse new_context is_sentinel to_json_string f2 W
        context_string = Some r2 ->
      r1 = r2) /\
  (forall (context_string : string) f1 f2 (self : Orchestrator)
          self' self'' r1 r2,
      handle_ f1 self context_string = Some (self', r1) ->
      handle_ f2 self' context_string = Some (self'', r2) ->
      r1 = r2).
Proof.
  assert (Two : forall (context_string : string) f1 f2
                  (self1 self2 : Orchestrator) self1' self2' r1 r2,
      fn self1 = fn self2 ->
      customStatus self1 = customStatus self2 ->
      handle_ f1 self1 context_string = Some (self1', r1) ->
      handle_ f2 self2 context_string = Some (self2', r2) ->
      r1 = r2).
  { intros cs f1 f2 [W1 st1 d1 g1] [W2 st2 d2 g2] self1' self2' r1 r2 HW Hst.
    simpl in HW, Hst. subst W2 st2.
    apply handle_instance_irrelevant. }
  split; [exact Two |]. split.
  - intros cs f1 f2 W r1 r2. unfold create.
    destruct (handle _ _ _ _ f1 _ _) as [[s1 x1] |] eqn:H1; [| discriminate].
    destruct (handle _ _ _ _ f2 _ _) as [[s2 x2] |] eqn:H2; [| discriminate].
    simpl. intros E1 E2. inversion E1; inversion E2; subst.
    exact (Two cs f1 f2 _ _ _ _ _ _ eq_refl eq_refl H1 H2).
  - intros cs f1 f2 self self' self'' r1 r2 H1 H2.
    assert (Hkeeps : fn self = fn self' /\ customStatus self = customStatus self').
    { unfold handle, orchestration_state in H1.
      destruct (new_context cs).
      - inversion H1; subst. auto.
      - destruct (try_block _ _ _ _ _) as [[[g c] l] |]; [| discriminate].
        inversion H1; subst. auto. }
    destruct Hkeeps as [HW Hst].
    exact (Two cs f1 f2 _ _ _ _ _ _ HW Hst H1 H2).
Qed.

End Properties.

(** * The scenarios, run *)

(** An instance of the driver for the scenarios. *)
Lemma suspension_decision_witness :
  (exists self',
      orchestration_state parse_seconds scenario_contexts no_sentinel 3
        (Orchestrator_init await_twice) "started"
      = Some (self',
              inr {| is_done := false;
                     output := VNone;
                     state_actions := [[callAction]];
                     custom_status := VNone;
                     error := None |})) /\
  (exists self',
      orchestration_state parse_seconds scenario_contexts no_sentinel 1
        (Orchestrator_init await_call) "started"
      = Some (self',
              inr {| is_done := false;
                     output := VNone;
                     state_actions := [[callAction]];
                     custom_status := VNone;
                     error := None |})).
Proof.
  split.
  - apply (proj1 (suspension_decision parse_seconds scenario_contexts
                    no_sentinel)
             (Orchestrator_init await_twice) "started"%string history_started
             (mkLoop (W := await_twice)
                (AwaitTwice_first (mkTask PENDING callAction))
                (PyTask (mkTask PENDING callAction)) history_started)
             O
             (mkLoop (W := await_twice)
                (AwaitTwice_first (mkTask PENDING callAction))
                (PyTask (mkTask PENDING callAction)) history_started)
             3%nat);
      [reflexivity | reflexivity | reflexivity | reflexivity | lia].
  - apply (proj2 (suspension_decision parse_seconds scenario_contexts
                    no_sentinel)
             "started"%string (started_at "1000" false) (Some 1000) 1%nat);
      [reflexivity | reflexivity | lia].
Defined.

Lemma decision_invariant_holds_witness :
  decision_invariant
    {| is_done := false;
       output := VNone;
       state_actions := [[callAction]];
       custom_status := VNone;
       error := Some "boom"%string |}.
Proof.
  apply (decision_invariant_holds parse_seconds scenario_contexts no_sentinel
           1%nat (Orchestrator_init await_call) "failed"%string
           (assigned (Orchestrator_init await_call)
              (set_actions [[callAction]] history_failed)
              AwaitCall_finished)).
  reflexivity.
Defined.







Lemma fault_reinjection_witness :
  let s := mkLoop (W := await_call) AwaitCall_at_yield
             (PyTask (mkTask (FAULTED (Exception "boom")) callAction))
             history_failed in
  let c := set_actions [[callAction]] history_failed in
  decision_started_event c = decision_started_event history_failed /\
  current_utc_datetime c = Some 1000 /\
  loop_body parse_seconds no_sentinel (Orchestrator_init await_call) s
  = Break (W := await_call) AwaitCall_finished c
      (inl (Raise (Exception "boom"))) /\
  forall fuel,
    while_not_suspended parse_seconds no_sentinel (S fuel)
      (Orchestrator_init await_call) s
    = Some (AwaitCall_finished : G await_call, c,
            inl (Raise (Exception "boom"))).
Proof.
  exact (fault_reinjection parse_seconds no_sentinel
           (Orchestrator_init await_call)
           (mkLoop (W := await_call) AwaitCall_at_yield
              (PyTask (mkTask (FAULTED (Exception "boom")) callAction))
              history_failed)
           (Exception "boom")
           (or_introl
              (ex_intro _ (mkTask (FAULTED (Exception "boom")) callAction)
                 (conj eq_refl eq_refl)))).
Defined.

(** C7 as stated fails: the search is not confined to the unprocessed
    events.  The later decision start of this history is marked processed;
    [_reset_timestamp] selects it, where the search among unprocessed
    events finds nothing and would leave the time absent. *)
Lemma reset_timestamp_reads_processed_events :
  _reset_timestamp parse_seconds history_two_starts
  = inr (set_time (started_at "2000" true) (Some 2000) history_two_starts) /\
  IsProcessed (started_at "2000" true) = true /\
  next_unprocessed_decision_start parse_seconds 1000
    (histories history_two_starts) = None /\
  reset_timestamp_among_unprocessed parse_seconds history_two_starts
  = inr (set_time (started_at "1000" false) None history_two_starts) /\
  _reset_timestamp parse_seconds history_two_starts
  <> reset_timestamp_among_unprocessed parse_seconds history_two_starts.
Proof.
  repeat split. vm_compute. discriminate.
Qed.

Lemma reset_timestamp_selects_witness :
  match next_decision_start parse_seconds 1000 (histories history_two_starts) with
  | Some first =>
      exists now,
        parse_seconds (Timestamp first) = inr now /\ 1000 < now /\
        In first (histories history_two_starts) /\
        EventType first = OrchestratorStarted /\
        _reset_timestamp parse_seconds history_two_starts =
        inr {| histories := histories history_two_starts;
               decision_started_event := first;
               current_utc_datetime := Some now;
               actions := actions history_two_starts |}
  | None =>
      _reset_timestamp parse_seconds history_two_starts =
      inr {| histories := histories history_two_starts;
             decision_started_event := decision_started_event history_two_starts;
             current_utc_datetime := None;
             actions := actions history_two_starts |}
  end.
Proof.
  apply (reset_timestamp_selects parse_seconds history_two_starts 1000).
  - reflexivity.
  - intros e Hin Hty. simpl in Hin.
    destruct Hin as [<- | [<- | [<- | [<- | []]]]];
      try discriminate Hty; eexists; reflexivity.
Defined.

(** C8 as stated fails, on both counts.  After the one pass of the
    completed call the current time is absent, which is the timestamp of no
    event.  And a present time is not drawn from the history alone: on a
    timestamp that gives the year only, [dt_parse] takes month and day from
    the day of the run, so the same history gives other times on another
    day. *)
Lemma simulated_time_becomes_absent :
  map current_utc_datetime
    (replay_contexts parse_seconds no_sentinel 1
       (Orchestrator_init await_call) history_completed)
  = [Some 1000; None] /\
  ~ Forall (fun c => exists t,
                current_utc_datetime c = Some t /\
                sourced_from_history parse_seconds history_completed t)
      (replay_contexts parse_seconds no_sentinel 1
         (Orchestrator_init await_call) history_completed) /\
  map current_utc_datetime
    (replay_contexts (parse_year 10) no_sentinel 1
       (Orchestrator_init await_call)
       (set_time (started_at "1000" false) (Some (366 * 1000 + 10))
          history_two_starts))
  = [Some 366010; Some 732010] /\
  map current_utc_datetime
    (replay_contexts (parse_year 11) no_sentinel 1
       (Orchestrator_init await_call)
       (set_time (started_at "1000" false) (Some (366 * 1000 + 11))
          history_two_starts))
  = [Some 366011; Some 732011].
Proof.
  split; [reflexivity |]. split; [| split; reflexivity].
  intros H. vm_compute in H.
  inversion H as [| c0 l0 _ Hrest]; subst.
  inversion Hrest as [| c1 l1 [t [Ht _]] _]; subst.
  discriminate Ht.
Qed.

Lemma simulated_time_monotone_witness :
  Sorted time_le
    (map current_utc_datetime
       (replay_contexts parse_seconds no_sentinel 3
          (Orchestrator_init await_call) history_two_starts)) /\
  Forall (absent_or_sourced parse_seconds history_two_starts)
    (replay_contexts parse_seconds no_sentinel 3
       (Orchestrator_init await_call) history_two_starts) /\
  Forall (time_reading parse_seconds history_two_starts)
    (replay_contexts parse_seconds no_sentinel 3
       (Orchestrator_init await_call) history_two_starts).
Proof.
  apply (simulated_time_monotone parse_seconds no_sentinel 3%nat
           (Orchestrator_init await_call) history_two_starts).
  split; [left; reflexivity |].
  split; [reflexivity |].
  exists 1000. split; reflexivity.
Defined.

(** C10 as stated fails: one context string and one workflow, run on two
    days.  The timestamps of the history give the year only; the workflow
    returns the current time after its call; the two decisions differ. *)
Lemma decisions_differ_by_day :
  (exists self',
      handle (parse_year 10) (contexts_on 10) no_sentinel dumps 1
        (Orchestrator_init await_then_now) "two starts"
      = Some (self',
              inr "isDone=true;actions=call:call:null;output=732010;error=null"%string)) /\
  (exists self',
      handle (parse_year 11) (contexts_on 11) no_sentinel dumps 1
        (Orchestrator_init await_then_now) "two starts"
      = Some (self',
              inr "isDone=true;actions=call:call:null;output=732011;error=null"%string)) /\
  "isDone=true;actions=call:call:null;output=732010;error=null"%string
  <> "isDone=true;actions=call:call:null;output=732011;error=null"%string.
Proof.
  split; [eexists; reflexivity |]. split; [eexists; reflexivity |].
  discriminate.
Qed.

Lemma handle_deterministic_witness :
  exists self1' self2' r1 r2,
    handle parse_seconds scenario_contexts no_sentinel dumps 1
      (Orchestrator_init await_call) "completed" = Some (self1', r1) /\
    handle parse_seconds scenario_contexts no_sentinel dumps 5
      (assigned (Orchestrator_init await_call)
         (set_actions [[callAction]] history_started) AwaitCall_at_yield)
      "completed" = Some (self2', r2) /\
    r1 = r2.
Proof.
  eexists. eexists. eexists. eexists.
  split; [reflexivity |]. split; [reflexivity |].
  apply (proj1 (handle_deterministic parse_seconds scenario_contexts
                  no_sentinel dumps)
           "completed"%string 1%nat 5%nat
           (Orchestrator_init await_call)
           (assigned (Orchestrator_init await_call)
              (set_actions [[callAction]] history_started) AwaitCall_at_yield)
           (assigned (Orchestrator_init await_call)
              (set_time (started_at "1000" false) None
                 (set_actions [[callAction]] history_completed))
              AwaitCall_finished)
           (assigned (Orchestrator_init await_call)
              (set_time (started_at "1000" false) None
                 (set_actions [[callAction]] history_completed))
              AwaitCall_finished));
    reflexivity.
Defined.

(** * Further properties of the driver *)

Section Further.

Variable dt_parse : string -> Exn + Z.
Variable new_context : string -> Exn + DurableOrchestrationContext.
Variable is_sentinel : PyObj -> bool.
Variable to_json_string : OrchestratorState -> Exn + string.

Local Abbreviation reset_timestamp := (_reset_timestamp dt_parse).
Local Abbreviation body := (loop_body dt_parse is_sentinel).
Local Abbreviation while := (while_not_suspended dt_parse is_sentinel).
Local Abbreviation suspends := (should_suspend is_sentinel).
Local Abbreviation state_ :=
  (orchestration_state dt_parse new_context is_sentinel).
Local Abbreviation handle_ :=
  (handle dt_parse new_context is_sentinel to_json_string).

(** ** Leaving the loop *)

Lemma while_reaches_break n self s0 s g c l fuel :
  after_passes dt_parse is_sentinel n self s0 = Some s ->
  body self s = Break g c l ->
  (n < fuel)%nat ->
  while fuel self s0 = Some (g, c, l).
Proof.
  revert s0 fuel. induction n as [| n IH]; intros s0 fuel Hreach Hb Hlt.
  - simpl in Hreach. inversion Hreach; subst.
    destruct fuel as [| fuel]; [lia |]. simpl. now rewrite Hb.
  - destruct fuel as [| fuel]; [lia |]. simpl in *.
    destruct (body self s0) as [s' | g0 c1 l0]; [| discriminate].
    apply IH; [assumption | assumption | lia].
Qed.

Lemma state_of_try_block fuel self (context_string : string) c0 g c l :
  new_context context_string = inr c0 ->
  try_block dt_parse is_sentinel fuel self c0 = Some (g, c, l) ->
  state_ fuel self context_string
  = Some (assigned self c g, except_clauses self c l).
Proof.
  intros Hnew Htry. unfold orchestration_state. now rewrite Hnew, Htry.
Qed.

(** X1. A workflow that ends when it is first resumed, before any
    [yield]: no pass of the loop runs (any fuel will do, none included)
    and the context is the one the constructor built.  When it returned
    the value [v], the decision is done with output [v]; when it raised an
    [Exception], the decision is not done and carries [str(e)]; in both
    cases the actions are those of the constructed context. *)
Theorem ends_before_first_yield :
  forall fuel (self : Orchestrator) (context_string : string) c0 g,
    new_context context_string = inr c0 ->
    (forall v,
        gen_send (fn self) (gen_start (fn self)) c0 VNone
        = (g, inl (StopIteration v)) ->
        state_ fuel self context_string
        = Some (assigned self c0 g,
                inr {| is_done := true;
                       output := v;
                       state_actions := actions c0;
                       custom_status := customStatus self;
                       error := None |})) /\
    (forall e,
        gen_send (fn self) (gen_start (fn self)) c0 VNone
        = (g, inl (Raise e)) ->
        is_Exception e = true ->
        state_ fuel self context_string
        = Some (assigned self c0 g,
                inr {| is_done := false;
                       output := VNone;
                       state_actions := actions c0;
                       custom_status := customStatus self;
                       error := Some (str e) |})).
Proof.
  intros fuel self cs c0 g Hnew. split.
  - intros v Hsend.
    rewrite (state_of_try_block fuel self cs c0 g c0 (inl (StopIteration v)));
      [reflexivity | assumption |].
    unfold try_block. simpl. rewrite Hsend. reflexivity.
  - intros e Hsend He.
    rewrite (state_of_try_block fuel self cs c0 g c0 (inl (Raise e)));
      [simpl; now rewrite He | assumption |].
    unfold try_block. simpl. rewrite Hsend. reflexivity.
Qed.

(** X2. When the loop reaches a yielded object that is neither [None] nor
    a handle, and that does not suspend, the pass records no action for
    it and, the re-anchoring done, reads its [result].  An object that has
    the attribute is treated as a handle is: the generator is resumed with
    the value.  On an object that has it not the reading raises
    [AttributeError]: the generator is not resumed (the instance holds it
    as it stood after that yield) and [handle] ends with the failure
    decision that carries the error. *)
Theorem plain_yield_fails_on_result :
  forall (self : Orchestrator) (context_string : string) c0 s0 n s
         class_name c' fuel,
    new_context context_string = inr c0 ->
    resumed c0 (_generate_next (fn self) (gen_start (fn self)) c0 PyNone)
    = Continue s0 ->
    after_passes dt_parse is_sentinel n self s0 = Some s ->
    reset_timestamp (loop_context s) = inr c' ->
    (n < fuel)%nat ->
    (generation_state s = PyOther class_name None ->
     is_sentinel (PyOther class_name None) = false ->
     state_ fuel self context_string
     = Some (assigned self c' (loop_generator s),
             inr {| is_done := false;
                    output := VNone;
                    state_actions := actions (loop_context s);
                    custom_status := customStatus self;
                    error := Some (str (AttributeError class_name "result")) |})) /\
    (forall result,
        generation_state s = PyOther class_name (Some result) ->
        is_sentinel (PyOther class_name (Some result)) = false ->
        actions c' = actions (loop_context s) /\
        body self s =
        resumed c' (gen_send (fn self) (loop_generator s) c' result)).
Proof.
  intros self cs c0 s0 n s cls c' fuel Hnew Hres Hreach Hr Hlt. split.
  - intros Hy Hsent.
    assert (Hb : body self s =
                 Break (loop_generator s) c'
                   (inl (Raise (AttributeError cls "result")))).
    { unfold loop_body. rewrite Hy. simpl. rewrite Hsent, Hr. reflexivity. }
    pose proof (while_reaches_break n self s0 s _ _ _ fuel Hreach Hb Hlt)
      as Hrun.
    rewrite (state_of_try_block fuel self cs c0 (loop_generator s) c'
               (inl (Raise (AttributeError cls "result"))) Hnew).
    + simpl. apply reset_timestamp_frame in Hr as [_ ->]. reflexivity.
    + unfold try_block. now rewrite Hres.
  - intros result Hy Hsent. split.
    + now apply reset_timestamp_frame in Hr as [_ ->].
    + unfold loop_body. rewrite Hy. simpl. rewrite Hsent, Hr. reflexivity.
Qed.

(** X3. When the re-anchoring of a pass raises an [Exception] (a timestamp
    that [dt_parse] rejects), [handle] ends with the failure decision that
    carries it: the batch of the object yielded last is in the actions, the
    generator is not resumed, and the time fields of the context are
    those of before the pass. *)
Theorem reset_failure_surfaces :
  forall (self : Orchestrator) (context_string : string) c0 s0 n s e fuel,
    new_context context_string = inr c0 ->
    resumed c0 (_generate_next (fn self) (gen_start (fn self)) c0 PyNone)
    = Continue s0 ->
    after_passes dt_parse is_sentinel n self s0 = Some s ->
    suspends (generation_state s) = false ->
    faulted_exception (generation_state s) = None ->
    reset_timestamp (_add_to_actions (generation_state s) (loop_context s))
    = inl e ->
    is_Exception e = true ->
    (n < fuel)%nat ->
    state_ fuel self context_string
    = Some (assigned self
              (_add_to_actions (generation_state s) (loop_context s))
              (loop_generator s),
            inr {| is_done := false;
                   output := VNone;
                   state_actions :=
                     actions (loop_context s) ++ batch_of (generation_state s);
                   custom_status := customStatus self;
                   error := Some (str e) |}) /\
    current_utc_datetime
      (_add_to_actions (generation_state s) (loop_context s))
    = current_utc_datetime (loop_context s) /\
    decision_started_event
      (_add_to_actions (generation_state s) (loop_context s))
    = decision_started_event (loop_context s).
Proof.
  intros self cs c0 s0 n s e fuel Hnew Hres Hreach Hs Hf Hr He Hlt.
  destruct (add_to_actions_frame (generation_state s) (loop_context s))
    as (_ & Hd & Ht).
  split; [| split; assumption].
  assert (Hb : body self s =
               Break (loop_generator s)
                 (_add_to_actions (generation_state s) (loop_context s))
                 (inl (Raise e))).
  { unfold loop_body. rewrite Hs, Hf, Hr. reflexivity. }
  pose proof (while_reaches_break n self s0 s _ _ _ fuel Hreach Hb Hlt) as Hrun.
  rewrite (state_of_try_block fuel self cs c0 (loop_generator s)
             (_add_to_actions (generation_state s) (loop_context s))
             (inl (Raise e)) Hnew).
  - simpl. rewrite He, add_to_actions_actions. reflexivity.
  - unfold try_block. now rewrite Hres.
Qed.

(** ** What a call leaves behind *)

Lemma body_continue_histories self s s' :
  body self s = Continue s' ->
  histories (loop_context s') = histories (loop_context s).
Proof.
  unfold loop_body. intros H.
  destruct (add_to_actions_frame (generation_state s) (loop_context s))
    as (Hh & _ & _).
  destruct (suspends (generation_state s)); [discriminate |].
  destruct (faulted_exception (generation_state s)).
  - apply resumed_continue in H. now rewrite H.
  - destruct (reset_timestamp _) as [e | c'] eqn:Hr; [discriminate |].
    apply resumed_continue in H. rewrite H.
    apply reset_timestamp_frame in Hr as [-> _]. assumption.
Qed.

Lemma body_break_histories self s g c l :
  body self s = Break g c l ->
  histories c = histories (loop_context s).
Proof.
  unfold loop_body. intros H.
  destruct (add_to_actions_frame (generation_state s) (loop_context s))
    as (Hh & _ & _).
  destruct (suspends (generation_state s)).
  - inversion H; subst. assumption.
  - destruct (faulted_exception (generation_state s)).
    + apply resumed_break in H as [-> _]. assumption.
    + destruct (reset_timestamp _) as [e | c'] eqn:Hr.
      * inversion H; subst. assumption.
      * apply resumed_break in H as [-> _].
        apply reset_timestamp_frame in Hr as [-> _]. assumption.
Qed.

Lemma while_histories fuel self s g c l :
  while fuel self s = Some (g, c, l) ->
  histories c = histories (loop_context s).
Proof.
  revert s. induction fuel as [| fuel IH]; intros s H; [discriminate |].
  simpl in H. destruct (body self s) as [s' | g' c' l'] eqn:Hb.
  - rewrite (IH _ H). now apply body_continue_histories.
  - inversion H; subst. now apply body_break_histories in Hb.
Qed.

Lemma try_block_histories fuel self c0 g c l :
  try_block dt_parse is_sentinel fuel self c0 = Some (g, c, l) ->
  histories c = histories c0.
Proof.
  unfold try_block.
  destruct (resumed _ _) as [s0 | g0 c1 l0] eqn:Hres; intros H.
  - apply while_histories in H. now rewrite (resumed_continue _ _ _ Hres) in H.
  - apply resumed_break in Hres as [-> _]. now inversion H.
Qed.

Lemma state_inversion fuel self (context_string : string) c0 self' r :
  new_context context_string = inr c0 ->
  state_ fuel self context_string = Some (self', r) ->
  exists g c l,
    try_block dt_parse is_sentinel fuel self c0 = Some (g, c, l) /\
    self' = assigned self c g /\ r = except_clauses self c l.
Proof.
  intros Hnew H. unfold orchestration_state in H. rewrite Hnew in H.
  destruct (try_block _ _ _ _ _) as [[[g c] l] |] eqn:Htry; [| discriminate].
  inversion H; subst. eauto 6.
Qed.

(** X4. [handle] never sets the custom status: the instance keeps its
    workflow and its custom status through a call, whatever the call ends
    with, and every decision carries the custom status the instance had;
    a decision of a new instance, as [create] builds one at each call,
    carries none. *)
Theorem custom_status_never_set :
  (forall fuel (self : Orchestrator) (context_string : string) self' r,
      state_ fuel self context_string = Some (self', r) ->
      fn self' = fn self /\ customStatus self' = customStatus self /\
      forall d, r = inr d -> custom_status d = customStatus self) /\
  (forall fuel (W : Workflow) (context_string : string) self' d,
      state_ fuel (Orchestrator_init W) context_string = Some (self', inr d) ->
      custom_status d = VNone).
Proof.
  assert (General :
    forall fuel (self : Orchestrator) (context_string : string) self' r,
      state_ fuel self context_string = Some (self', r) ->
      fn self' = fn self /\ customStatus self' = customStatus self /\
      forall d, r = inr d -> custom_status d = customStatus self).
  { intros fuel self cs self' r H.
    destruct (new_context cs) as [e | c0] eqn:Hnew.
    - unfold orchestration_state in H. rewrite Hnew in H.
      inversion H; subst. repeat split. intros d Hd. discriminate Hd.
    - destruct (state_inversion _ _ _ _ _ _ Hnew H)
        as (g & c & l & Htry & -> & ->).
      repeat split. intros d Hd.
      destruct l as [[value | e] | d']; simpl in Hd.
      + inversion Hd; reflexivity.
      + destruct (is_Exception e); inversion Hd; reflexivity.
      + inversion Hd; subst.
        now rewrite (try_block_decision _ _ _ _ _ _ _ _ Htry). }
  split; [exact General |].
  intros fuel W cs self' d H.
  destruct (General _ _ _ _ _ H) as (_ & _ & Hd).
  exact (Hd d eq_refl).
Qed.

(** X5. After a call that returned a decision, the instance holds the
    context of the call: its actions are the actions of the decision, and
    its history is the history that the constructor decoded, unchanged. *)
Theorem instance_holds_final_context :
  forall fuel (self : Orchestrator) (context_string : string) c0 self' d,
    new_context context_string = inr c0 ->
    state_ fuel self context_string = Some (self', inr d) ->
    exists c,
      durable_context self' = Some c /\
      state_actions d = actions c /\
      histories c = histories c0.
Proof.
  intros fuel self cs c0 self' d Hnew H.
  destruct (state_inversion _ _ _ _ _ _ Hnew H)
    as (g & c & l & Htry & -> & Hd).
  exists c. split; [reflexivity |]. split.
  - apply (except_clauses_actions self c l); [| now symmetry].
    intros d' ->. now apply try_block_decision in Htry.
  - now apply try_block_histories in Htry.
Qed.

(** ** Which decision *)

Lemma while_suspended_last fuel self s g c d :
  while fuel self s = Some (g, c, inr d) ->
  exists ys y,
    yielded dt_parse is_sentinel fuel self s = ys ++ [y] /\
    suspends y = true.
Proof.
  revert s. induction fuel as [| fuel IH]; intros s H; [discriminate |].
  unfold yielded in *. simpl in *.
  destruct (body self s) as [s' | g' c' l'] eqn:Hb.
  - destruct (IH _ H) as (ys & y & Hys & Hy).
    exists (generation_state s :: ys), y. rewrite Hys. auto.
  - inversion H; subst. apply body_break_decision in Hb as (Hs & _ & _).
    exists [], (generation_state s). auto.
Qed.

(** X6. The three decisions, told apart by how the [try] block was left.
    The decision is done exactly when the generator returned, with the
    returned value for output; it carries an error exactly when an
    [Exception] left the block; it is neither done nor in error exactly when
    the loop suspended, and then the object yielded last satisfies the
    suspension predicate. *)
Theorem decision_classification :
  forall fuel (self : Orchestrator) (context_string : string) c0 self' d,
    new_context context_string = inr c0 ->
    state_ fuel self context_string = Some (self', inr d) ->
    exists g c l,
      try_block dt_parse is_sentinel fuel self c0 = Some (g, c, l) /\
      match l with
      | inl (StopIteration v) =>
          is_done d = true /\ output d = v /\ error d = None
      | inl (Raise e) =>
          is_Exception e = true /\
          is_done d = false /\ output d = VNone /\ error d = Some (str e)
      | inr _ =>
          is_done d = false /\ output d = VNone /\ error d = None /\
          exists ys y,
            replayed dt_parse is_sentinel fuel self c0 = ys ++ [y] /\
            suspends y = true
      end.
Proof.
  intros fuel self cs c0 self' d Hnew H.
  destruct (state_inversion _ _ _ _ _ _ Hnew H)
    as (g & c & l & Htry & _ & Hd).
  exists g, c, l. split; [assumption |].
  destruct l as [[value | e] | d']; simpl in Hd.
  - inversion Hd; subst; simpl. auto.
  - destruct (is_Exception e); inversion Hd; subst; simpl. auto.
  - inversion Hd; subst d'.
    rewrite (try_block_decision _ _ _ _ _ _ _ _ Htry). simpl.
    repeat split.
    unfold try_block in Htry. unfold replayed.
    destruct (resumed _ _) as [s0 | g0 c1 l0] eqn:Hres.
    + now apply while_suspended_last in Htry.
    + apply resumed_break in Hres as [_ [raised Hl]].
      inversion Htry; subst. discriminate.
Qed.



(** ** More on the re-anchoring *)

Lemma filter_raising_raises {A : Type} (p : A -> Exn + bool) (l : list A) x err :
  In x l -> p x = inl err ->
  exists x' err', In x' l /\ p x' = inl err' /\ filter_raising p l = inl err'.
Proof.
  induction l as [| a l IH]; simpl; intros Hin Hx; [contradiction |].
  destruct (p a) as [ea | b] eqn:Ha.
  - exists a, ea. auto.
  - assert (Hl : In x l) by (destruct Hin as [-> | Hin]; [congruence | assumption]).
    destruct (IH Hl Hx) as (x' & err' & Hin' & Hx' & Hf).
    exists x', err'. simpl. rewrite Hf. auto.
Qed.

Lemma newer_raises last e err :
  is_newer_decision_start dt_parse last e = inl err <->
  is_decision_start e = true /\ dt_parse (Timestamp e) = inl err.
Proof.
  unfold is_newer_decision_start, is_decision_start.
  destruct (HistoryEventType_eqb _ _); simpl.
  - destruct (dt_parse (Timestamp e)); simpl; split.
    + intros H; inversion H; auto.
    + intros [_ H]; inversion H; auto.
    + discriminate.
    + intros [_ H]; discriminate.
  - split; [discriminate | intros [H _]; discriminate].
Qed.

(** X8. [_reset_timestamp] reads the timestamp of every OrchestratorStarted
    event of the history before it selects one: a timestamp among them
    that [dt_parse] rejects makes it raise, wherever the event stands,
    also behind an event that would have been selected; the exception is
    that of an OrchestratorStarted event of the history. *)
Theorem reset_timestamp_rejects_bad_start :
  forall c last e err,
    dt_parse (Timestamp (decision_started_event c)) = inr last ->
    In e (histories c) ->
    EventType e = OrchestratorStarted ->
    dt_parse (Timestamp e) = inl err ->
    exists e' err',
      In e' (histories c) /\ EventType e' = OrchestratorStarted /\
      dt_parse (Timestamp e') = inl err' /\
      _reset_timestamp dt_parse c = inl err'.
Proof.
  intros c last e err Hlast Hin Hty Herr.
  assert (Hp : is_newer_decision_start dt_parse last e = inl err).
  { apply newer_raises. unfold is_decision_start. rewrite Hty. auto. }
  destruct (filter_raising_raises _ _ _ _ Hin Hp)
    as (e' & err' & Hin' & Hp' & Hf).
  apply newer_raises in Hp' as [Hty' Herr'].
  exists e', err'. repeat split; try assumption.
  - unfold is_decision_start in Hty'. now destruct (EventType e').
  - unfold _reset_timestamp. rewrite Hlast. simpl. now rewrite Hf.
Qed.

Lemma filter_raising_starts_only last h :
  filter_raising (is_newer_decision_start dt_parse last) h =
  filter_raising (is_newer_decision_start dt_parse last)
    (filter is_decision_start h).
Proof.
  induction h as [| e h IH]; simpl; [reflexivity |].
  destruct (is_decision_start e) eqn:Hty; simpl.
  - now rewrite IH.
  - unfold is_newer_decision_start at 1. unfold is_decision_start in Hty.
    rewrite Hty. simpl. rewrite IH.
    now destruct (filter_raising _ (filter is_decision_start h)).
Qed.

(** X9. [_reset_timestamp] looks at the OrchestratorStarted events only:
    on two histories with the same OrchestratorStarted events in the same
    order it raises the same exception or gives the same decision-started
    event and current time; the other events, their timestamps included,
    play no part. *)
Theorem reset_timestamp_reads_starts_only :
  forall c h1 h2,
    filter is_decision_start h1 = filter is_decision_start h2 ->
    time_fields (reset_timestamp (set_histories h1 c)) =
    time_fields (reset_timestamp (set_histories h2 c)).
Proof.
  intros c h1 h2 Hsame. unfold _reset_timestamp. simpl.
  destruct (dt_parse (Timestamp (decision_started_event c))) as [e | last];
    simpl; [reflexivity |].
  rewrite (filter_raising_starts_only last h1),
          (filter_raising_starts_only last h2), Hsame.
  destruct (filter_raising _ _) as [e | evs]; simpl; [reflexivity |].
  destruct evs as [| first rest]; simpl; [reflexivity |].
  destruct (dt_parse (Timestamp first)); reflexivity.
Qed.

Lemma filter_length_lt {A : Type} (p q : A -> bool) (l : list A) x0 :
  (forall x, In x l -> p x = true -> q x = true) ->
  In x0 l -> q x0 = true -> p x0 = false ->
  (List.length (filter p l) < List.length (filter q l))%nat.
Proof.
  assert (Hle : forall l', (forall x, In x l' -> p x = true -> q x = true) ->
                 (List.length (filter p l') <= List.length (filter q l'))%nat).
  { induction l' as [| a l' IH]; simpl; intros Himp; [lia |].
    assert (IH' := IH (fun x Hx => Himp x (or_intror Hx))).
    destruct (p a) eqn:Hp.
    - rewrite (Himp a (or_introl eq_refl) Hp). simpl. lia.
    - destruct (q a); simpl; lia. }
  induction l as [| a l IH]; simpl; intros Himp Hin Hq Hp; [contradiction |].
  destruct Hin as [-> | Hin].
  - rewrite Hp, Hq. simpl.
    assert (H := Hle l (fun x Hx => Himp x (or_intror Hx))). lia.
  - assert (IH' := IH (fun x Hx => Himp x (or_intror Hx)) Hin Hq Hp).
    destruct (p a) eqn:Hpa.
    + rewrite (Himp a (or_introl eq_refl) Hpa). simpl. lia.
    + destruct (q a); simpl; lia.
Qed.

(** X10. A [_reset_timestamp] that returns either finds no later decision
    start, and then a second call on its result changes nothing more; or
    it moves the decision-started event to one with a strictly later
    timestamp, which is the new current time, and strictly fewer events of
    the history are later than the new one than were later than the old. *)
Theorem reset_timestamp_progress :
  forall c c' last,
    dt_parse (Timestamp (decision_started_event c)) = inr last ->
    reset_timestamp c = inr c' ->
    (current_utc_datetime c' = None /\
     decision_started_event c' = decision_started_event c /\
     reset_timestamp c' = inr c') \/
    (exists now,
        current_utc_datetime c' = Some now /\
        dt_parse (Timestamp (decision_started_event c')) = inr now /\
        last < now /\
        (List.length (filter (is_later_start dt_parse now) (histories c')) <
         List.length (filter (is_later_start dt_parse last) (histories c)))%nat).
Proof.
  intros c c' last Hlast H.
  pose proof H as Hreset.
  apply reset_timestamp_inr in H as (last' & Hlast' & H).
  rewrite Hlast in Hlast'. inversion Hlast'; subst last'. clear Hlast'.
  destruct (filter _ _) as [| first rest] eqn:Hfilter.
  - left. subst c'. simpl. repeat split.
    unfold _reset_timestamp in *. simpl.
    destruct (dt_parse (Timestamp (decision_started_event c)));
      [discriminate |]. simpl in *.
    destruct (filter_raising _ _) as [e | evs]; [discriminate |]. simpl in *.
    destruct evs as [| x evs]; [reflexivity |].
    destruct (dt_parse (Timestamp x)); simpl in *; inversion Hreset.
  - right. destruct H as (now & Hnow & ->). exists now.
    rewrite <- Hfilter. simpl.
    assert (Hfirst : In first (filter (is_later_start dt_parse last)
                                 (histories c)))
      by (rewrite Hfilter; now left).
    apply filter_In in Hfirst as [Hin Hlater].
    pose proof Hlater as Hlater'.
    apply is_later_start_true in Hlater' as (_ & t & Ht & Hlt).
    rewrite Hnow in Ht. inversion Ht; subst t.
    repeat split; try assumption.
    apply (filter_length_lt _ _ _ first); try assumption.
    + intros x _ Hx.
      apply is_later_start_true in Hx as (Hxty & t & Hxt & Hxlt).
      unfold is_later_start. rewrite Hxty, Hxt. simpl.
      apply Z.ltb_lt. lia.
    + unfold is_later_start. rewrite Hnow, Z.ltb_irrefl.
      apply andb_false_r.
Qed.

(** ** Faults that are handled, exceptions that are not caught *)


(** X12. An exception that is no [Exception] ([KeyboardInterrupt],
    [SystemExit]) and leaves the generator is caught by neither clause: it
    leaves [handle], which returns no decision with whatever fuel, though
    the instance has been assigned the context and the generator of the
    call. *)
Theorem non_exception_escapes :
  forall fuel (self : Orchestrator) (context_string : string) c0 g c e,
    new_context context_string = inr c0 ->
    try_block dt_parse is_sentinel fuel self c0 = Some (g, c, inl (Raise e)) ->
    is_Exception e = false ->
    handle_ fuel self context_string = Some (assigned self c g, inl e) /\
    forall fuel' self' r,
      handle_ fuel' self context_string = Some (self', r) -> r = inl e.
Proof.
  intros fuel self cs c0 g c e Hnew Htry He.
  assert (Hhere : handle_ fuel self cs = Some (assigned self c g, inl e)).
  { unfold handle.
    rewrite (state_of_try_block fuel self cs c0 g c _ Hnew Htry).
    simpl. now rewrite He. }
  split; [assumption |].
  intros fuel' self' r H.
  unfold handle in H.
  destruct (state_ fuel' self cs) as [[self0 r0] |] eqn:Hos; [| discriminate].
  inversion H; subst. clear H.
  destruct (state_inversion _ _ _ _ _ _ Hnew Hos)
    as (g' & c' & l' & Htry' & _ & ->).
  apply (try_block_fuel_mono _ _ _ (Nat.max fuel fuel')) in Htry; [| lia].
  apply (try_block_fuel_mono _ _ _ (Nat.max fuel fuel')) in Htry'; [| lia].
  rewrite Htry in Htry'. inversion Htry'; subst.
  simpl. now rewrite He.
Qed.

(** ** What leaves [handle] *)


End Further.

(** * The further properties, run *)

Lemma ends_before_first_yield_witness :
  orchestration_state parse_seconds scenario_contexts no_sentinel 0
    (Orchestrator_init (one_step (inl (StopIteration (VStr "done")))))
    "started"
  = Some (assigned
            (Orchestrator_init (one_step (inl (StopIteration (VStr "done")))))
            history_started true,
          inr {| is_done := true;
                 output := VStr "done";
                 state_actions := [];
                 custom_status := VNone;
                 error := None |}) /\
  orchestration_state parse_seconds scenario_contexts no_sentinel 0
    (Orchestrator_init (one_step (inl (Raise (Exception "no luck")))))
    "started"
  = Some (assigned
            (Orchestrator_init (one_step (inl (Raise (Exception "no luck")))))
            history_started true,
          inr {| is_done := false;
                 output := VNone;
                 state_actions := [];
                 custom_status := VNone;
                 error := Some "no luck"%string |}).
Proof.
  split.
  - apply (proj1 (ends_before_first_yield parse_seconds scenario_contexts
                    no_sentinel 0%nat
                    (Orchestrator_init
                       (one_step (inl (StopIteration (VStr "done")))))
                    "started"%string history_started true eq_refl)
             (VStr "done")).
    reflexivity.
  - apply (proj2 (ends_before_first_yield parse_seconds scenario_contexts
                    no_sentinel 0%nat
                    (Orchestrator_init
                       (one_step (inl (Raise (Exception "no luck")))))
                    "started"%string history_started true eq_refl)
             (Exception "no luck")); reflexivity.
Defined.

Lemma plain_yield_fails_on_result_witness :
  orchestration_state parse_seconds scenario_contexts no_sentinel 1
    (Orchestrator_init (one_step (inr (PyOther "int" None)))) "started"
  = Some (assigned (Orchestrator_init (one_step (inr (PyOther "int" None))))
            (set_time (started_at "1000" false) None history_started) true,
          inr {| is_done := false;
                 output := VNone;
                 state_actions := [];
                 custom_status := VNone;
                 error := Some "'int' object has no attribute 'result'"%string |}).
Proof.
  apply (proj1 (plain_yield_fails_on_result parse_seconds scenario_contexts
                  no_sentinel
                  (Orchestrator_init (one_step (inr (PyOther "int" None))))
                  "started"%string history_started
                  (mkLoop (W := one_step (inr (PyOther "int" None))) true
                     (PyOther "int" None) history_started)
                  O
                  (mkLoop (W := one_step (inr (PyOther "int" None))) true
                     (PyOther "int" None) history_started)
                  "int"%string
                  (set_time (started_at "1000" false) None history_started)
                  1%nat eq_refl eq_refl eq_refl eq_refl (Nat.lt_0_succ 0)));
    reflexivity.
Defined.

Lemma reset_failure_surfaces_witness :
  orchestration_state parse_seconds scenario_contexts no_sentinel 1
    (Orchestrator_init await_call) "bad timestamp"
  = Some (assigned (Orchestrator_init await_call)
            (set_actions [[callAction]] history_bad_timestamp)
            AwaitCall_at_yield,
          inr {| is_done := false;
                 output := VNone;
                 state_actions := [[callAction]];
                 custom_status := VNone;
                 error := Some "Unknown string format: soon"%string |}).
Proof.
  apply (proj1 (reset_failure_surfaces parse_seconds scenario_contexts
                  no_sentinel (Orchestrator_init await_call)
                  "bad timestamp"%string history_bad_timestamp
                  (mkLoop (W := await_call) AwaitCall_at_yield
                     (PyTask (mkTask (COMPLETED (VStr "42")) callAction))
                     history_bad_timestamp)
                  O
                  (mkLoop (W := await_call) AwaitCall_at_yield
                     (PyTask (mkTask (COMPLETED (VStr "42")) callAction))
                     history_bad_timestamp)
                  (Exception "Unknown string format: soon") 1%nat
                  eq_refl eq_refl eq_refl eq_refl eq_refl eq_refl eq_refl
                  (Nat.lt_0_succ 0))).
Defined.

Lemma custom_status_never_set_witness :
  custom_status
    {| is_done := true;
       output := VStr "42";
       state_actions := [[callAction]];
       custom_status := VNone;
       error := None |} = VNone.
Proof.
  apply (proj2 (custom_status_never_set parse_seconds scenario_contexts
                  no_sentinel)
           1%nat await_call "completed"%string
           (assigned (Orchestrator_init await_call)
              (set_time (started_at "1000" false) None
                 (set_actions [[callAction]] history_completed))
              AwaitCall_finished)).
  reflexivity.
Defined.

Lemma instance_holds_final_context_witness :
  exists c,
    durable_context
      (assigned (Orchestrator_init await_call)
         (set_time (started_at "1000" false) None
            (set_actions [[callAction]] history_completed))
         AwaitCall_finished) = Some c /\
    state_actions
      {| is_done := true;
         output := VStr "42";
         state_actions := [[callAction]];
         custom_status := VNone;
         error := None |} = actions c /\
    histories c = histories history_completed.
Proof.
  apply (instance_holds_final_context parse_seconds scenario_contexts
           no_sentinel 1%nat (Orchestrator_init await_call)
           "completed"%string history_completed);
    reflexivity.
Defined.

Lemma decision_classification_witness :
  exists g c l,
    try_block parse_seconds no_sentinel 1 (Orchestrator_init await_call)
      history_started = Some (g, c, l) /\
    match l with
    | inl (StopIteration v) =>
        is_done (suspended_decision (Orchestrator_init await_call)
                   (set_actions [[callAction]] history_started)) = true /\
        output (suspended_decision (Orchestrator_init await_call)
                  (set_actions [[callAction]] history_started)) = v /\
        error (suspended_decision (Orchestrator_init await_call)
                 (set_actions [[callAction]] history_started)) = None
    | inl (Raise e) =>
        is_Exception e = true /\
        is_done (suspended_decision (Orchestrator_init await_call)
                   (set_actions [[callAction]] history_started)) = false /\
        output (suspended_decision (Orchestrator_init await_call)
                  (set_actions [[callAction]] history_started)) = VNone /\
        error (suspended_decision (Orchestrator_init await_call)
                 (set_actions [[callAction]] history_started)) = Some (str e)
    | inr _ =>
        is_done (suspended_decision (Orchestrator_init await_call)
                   (set_actions [[callAction]] history_started)) = false /\
        output (suspended_decision (Orchestrator_init await_call)
                  (set_actions [[callAction]] history_started)) = VNone /\
        error (suspended_decision (Orchestrator_init await_call)
                 (set_actions [[callAction]] history_started)) = None /\
        exists ys y,
          replayed parse_seconds no_sentinel 1 (Orchestrator_init await_call)
            history_started = ys ++ [y] /\
          should_suspend no_sentinel y = true
    end.
Proof.
  apply (decision_classification parse_seconds scenario_contexts no_sentinel
           1%nat (Orchestrator_init await_call) "started"%string
           history_started
           (assigned (Orchestrator_init await_call)
              (set_actions [[callAction]] history_started)
              AwaitCall_at_yield));
    reflexivity.
Defined.


Lemma reset_timestamp_rejects_bad_start_witness :
  next_decision_start parse_seconds 1000 (histories history_late_bad_timestamp)
  = Some (started_at "2000" false) /\
  exists e' err',
    In e' (histories history_late_bad_timestamp) /\
    EventType e' = OrchestratorStarted /\
    parse_seconds (Timestamp e') = inl err' /\
    _reset_timestamp parse_seconds history_late_bad_timestamp = inl err'.
Proof.
  split; [reflexivity |].
  apply (reset_timestamp_rejects_bad_start parse_seconds
           history_late_bad_timestamp 1000 (started_at "soon" false)
           (Exception "Unknown string format: soon")).
  - reflexivity.
  - simpl. auto.
  - reflexivity.
  - reflexivity.
Defined.

Lemma reset_timestamp_reads_starts_only_witness :
  time_fields
    (_reset_timestamp parse_seconds
       (set_histories (histories history_three_starts) history_started))
  = time_fields
      (_reset_timestamp parse_seconds
         (set_histories
            [call_failed; started_at "1000" false; started_at "2000" false;
             mkEvent TimerFired "soon" false 7 EmptyString (-1) VNone EmptyString;
             started_at "3000" false]
            history_started)).
Proof.
  apply (reset_timestamp_reads_starts_only parse_seconds history_started).
  reflexivity.
Defined.

Lemma reset_timestamp_progress_witness :
  (current_utc_datetime
     (set_time (started_at "2000" false) (Some 2000) history_three_starts)
   = None /\
   decision_started_event
     (set_time (started_at "2000" false) (Some 2000) history_three_starts)
   = decision_started_event history_three_starts /\
   _reset_timestamp parse_seconds
     (set_time (started_at "2000" false) (Some 2000) history_three_starts)
   = inr (set_time (started_at "2000" false) (Some 2000) history_three_starts))
  \/
  (exists now,
      current_utc_datetime
        (set_time (started_at "2000" false) (Some 2000) history_three_starts)
      = Some now /\
      parse_seconds
        (Timestamp
           (decision_started_event
              (set_time (started_at "2000" false) (Some 2000)
                 history_three_starts))) = inr now /\
      1000 < now /\
      Nat.lt
        (List.length
           (filter (is_later_start parse_seconds now)
              (histories
                 (set_time (started_at "2000" false) (Some 2000)
                    history_three_starts))))
        (List.length
           (filter (is_later_start parse_seconds 1000)
              (histories history_three_starts)))).
Proof.
  apply (reset_timestamp_progress parse_seconds history_three_starts
           (set_time (started_at "2000" false) (Some 2000) history_three_starts)
           1000); reflexivity.
Defined.


Lemma non_exception_escapes_witness :
  handle parse_seconds scenario_contexts no_sentinel dumps 0
    (Orchestrator_init (one_step (inl (Raise KeyboardInterrupt)))) "started"
  = Some (assigned (Orchestrator_init (one_step (inl (Raise KeyboardInterrupt))))
            history_started true,
          inl KeyboardInterrupt).
Proof.
  apply (proj1 (non_exception_escapes parse_seconds scenario_contexts
                  no_sentinel dumps 0%nat
                  (Orchestrator_init (one_step (inl (Raise KeyboardInterrupt))))
                  "started"%string history_started true history_started
                  KeyboardInterrupt eq_refl eq_refl eq_refl)).
Defined.




